(** * Squarespace multi-currency display: a shallow embedding

    The script [squarespace-display-multi-currency.js] fetches a published
    CSV of exchange rates, reads the product price from the page and
    inserts a block listing the price in the other currencies.

    The development follows the script top to bottom:
    - [JsString], [JsNumber]: strings as sequences of code units, numbers
      as IEEE 754 binary64 values, [split], [parseFloat], the regular
      expression of the price;
    - [Dom]: the page as a forest of nodes, element references as paths,
      [querySelector], [getElementById], [remove], [insertBefore];
    - [Browser]: the browser state, exceptions, [fetch], the console and
      [Intl.NumberFormat];
    - [Script]: the four functions of the script in a state-and-exception
      monad over the browser state;
    - [Spec]: the observations the statements are written with, and
      [Sample]: pages and feeds for the examples;
    - the theorems about them.

    [displayCurrencies] is one cycle run to its end, with no other cycle
    started in between; [Phases] cuts the cycle at its first [await],
    for the cycles that overlap. *)

From Stdlib Require Import ZArith List String Ascii Bool Lia PeanoNat DecimalString.
From Stdlib Require Import Floats.SpecFloat.
Import ListNotations.

Local Open Scope string_scope.
Local Open Scope list_scope.

(* ===================================================================== *)
(** * Strings *)
(* ===================================================================== *)

Module JsString.

(** A string is a sequence of code units; [ascii] holds the code units
    0..255.  The digits, the comma, the point and the newline that the
    script looks for are among them; text with code units above 255 is
    outside the model. *)

Definition code (c : ascii) : nat := nat_of_ascii c.

Definition is_digit (c : ascii) : bool :=
  ((48 <=? code c) && (code c <=? 57))%nat.

(** [StrWhiteSpaceChar] below 256: TAB, LF, VT, FF, CR, SP, NBSP. *)
Definition is_white_space (c : ascii) : bool :=
  (((9 <=? code c) && (code c <=? 13)) || (code c =? 32) || (code c =? 160))%nat.

(** ASCII white space, the separator of the tokens of a [class] attribute. *)
Definition is_ascii_space (c : ascii) : bool :=
  ((code c =? 9) || (code c =? 10) || (code c =? 12) || (code c =? 13)
   || (code c =? 32))%nat.

Definition is_ascii_letter (c : ascii) : bool :=
  (((65 <=? code c) && (code c <=? 90))
   || ((97 <=? code c) && (code c <=? 122)))%nat.

Definition is_dot (c : ascii) : bool := Ascii.eqb c ".".

Definition to_upper (c : ascii) : ascii :=
  if ((97 <=? code c) && (code c <=? 122))%nat
  then ascii_of_nat (code c - 32) else c.

Fixpoint map_string (f : ascii -> ascii) (s : string) : string :=
  match s with
  | EmptyString => EmptyString
  | String c r => String (f c) (map_string f r)
  end.

Fixpoint forallb_string (p : ascii -> bool) (s : string) : bool :=
  match s with
  | EmptyString => true
  | String c r => p c && forallb_string p r
  end.

Fixpoint contains (c : ascii) (s : string) : bool :=
  match s with
  | EmptyString => false
  | String d r => Ascii.eqb d c || contains c r
  end.

(** [s.split(sep)] for a separator of one code unit: the fields between
    the separators, never an empty array. *)
Fixpoint split (sep : ascii) (s : string) : list string :=
  match s with
  | EmptyString => [EmptyString]
  | String c r =>
      if Ascii.eqb c sep then EmptyString :: split sep r
      else match split sep r with
           | field :: fields => String c field :: fields
           | [] => [String c EmptyString]
           end
  end.

(** [s.replace(/c/g, '')]: every occurrence of [c] removed. *)
Fixpoint remove_all (c : ascii) (s : string) : string :=
  match s with
  | EmptyString => EmptyString
  | String d r => if Ascii.eqb d c then remove_all c r else String d (remove_all c r)
  end.

(** The tokens of a white-space separated attribute value. *)
Fixpoint tokens_aux (cur : string) (s : string) : list string :=
  match s with
  | EmptyString => match cur with EmptyString => [] | _ => [cur] end
  | String c r =>
      if is_ascii_space c
      then match cur with
           | EmptyString => tokens_aux EmptyString r
           | _ => cur :: tokens_aux EmptyString r
           end
      else tokens_aux (cur ++ String c EmptyString) r
  end.

Definition tokens (s : string) : list string := tokens_aux EmptyString s.

Definition has_token (t : string) (s : string) : bool :=
  existsb (String.eqb t) (tokens s).

(** A JavaScript value that is a string or [undefined] (what indexing an
    array of strings gives). *)
Inductive value :=
  | Undefined
  | Str (s : string).

Definition ToString (v : value) : string :=
  match v with
  | Undefined => "undefined"
  | Str s => s
  end.

(** [arr[i]] on an array of strings. *)
Definition index (arr : list string) (i : nat) : value :=
  match nth_error arr i with
  | Some s => Str s
  | None => Undefined
  end.

End JsString.

(* ===================================================================== *)
(** * Numbers *)
(* ===================================================================== *)

Module JsNumber.
Import JsString.

(** A Number is an IEEE 754 binary64 value. *)
Definition number := spec_float.

Definition prec : Z := 53.
Definition emax : Z := 1024.

Definition NaN : number := S754_nan.

Definition mul (x y : number) : number := SFmul prec emax x y.

Definition isNaN (x : number) : bool :=
  match x with S754_nan => true | _ => false end.

(** The Number value of the decimal [m * 10^k], signed: the nearest
    binary64 value, ties to even (RoundMVResult). *)
Definition round_decimal (neg : bool) (m : N) (k : Z) : number :=
  match m with
  | N0 => S754_zero neg
  | Npos p =>
      if (0 <=? k)%Z
      then binary_normalize prec emax
             (if neg then Z.neg p * 10 ^ k else Z.pos p * 10 ^ k)%Z 0%Z neg
      else SFdiv prec emax (S754_finite neg p 0%Z)
             (S754_finite false (Z.to_pos (10 ^ (- k))) 0%Z)
  end.

Definition digit_value (c : ascii) : N := N.of_nat (code c - 48).

Fixpoint digits_value_acc (acc : N) (s : string) : N :=
  match s with
  | EmptyString => acc
  | String c r => digits_value_acc (acc * 10 + digit_value c)%N r
  end.

Definition digits_value (s : string) : N := digits_value_acc 0%N s.

(** The longest run of digits a string starts with, and what follows it. *)
Fixpoint span_digits (s : string) : string * string :=
  match s with
  | EmptyString => (EmptyString, EmptyString)
  | String c r =>
      if is_digit c
      then let '(ds, rest) := span_digits r in (String c ds, rest)
      else (EmptyString, s)
  end.

Fixpoint trim_start (s : string) : string :=
  match s with
  | EmptyString => EmptyString
  | String c r => if is_white_space c then trim_start r else s
  end.

Definition is_empty (s : string) : bool :=
  match s with EmptyString => true | _ => false end.

(** An optional sign: whether it is [-], and the text after it. *)
Definition signed (s : string) : bool * string :=
  match s with
  | EmptyString => (false, s)
  | String c r =>
      if Ascii.eqb c "+" then (false, r)
      else if Ascii.eqb c "-" then (true, r)
      else (false, s)
  end.

(** [ExponentPart_opt]: the exponent a literal continues with, 0 when the
    text is no exponent part. *)
Definition exponent_part (s : string) : Z :=
  match s with
  | EmptyString => 0%Z
  | String c r =>
      if Ascii.eqb c "e" || Ascii.eqb c "E"
      then let '(neg, r') := signed r in
           let ds := fst (span_digits r') in
           if is_empty ds then 0%Z
           else if neg then (- Z.of_N (digits_value ds))%Z
                else Z.of_N (digits_value ds)
      else 0%Z
  end.

(** A decimal point and the digits after it, when the text starts with
    a decimal point. *)
Definition fraction (s : string) : option (string * string) :=
  match s with
  | EmptyString => None
  | String c r => if is_dot c then Some (span_digits r) else None
  end.

(** The longest prefix that is a [StrUnsignedDecimalLiteral], as a Number;
    [NaN] when there is none. *)
Definition unsigned_literal (neg : bool) (s : string) : number :=
  if prefix "Infinity" s then S754_infinity neg
  else
    let '(ip, r1) := span_digits s in
    match fraction r1 with
    | Some (fp, r3) =>
        if is_empty ip && is_empty fp then NaN
        else round_decimal neg (digits_value (ip ++ fp))
               (exponent_part r3 - Z.of_nat (String.length fp))
    | None =>
        if is_empty ip then NaN
        else round_decimal neg (digits_value ip) (exponent_part r1)
    end.

(** [parseFloat] on a string: leading white space is dropped, then the
    longest prefix that is a [StrDecimalLiteral] is converted. *)
Definition parseFloat_string (s : string) : number :=
  let '(neg, t) := signed (trim_start s) in
  unsigned_literal neg t.

(** [parseFloat(v)]: the argument is converted with [ToString] first. *)
Definition parseFloat (v : value) : number :=
  parseFloat_string (ToString v).

End JsNumber.

(* ===================================================================== *)
(** * Regular expressions *)
(* ===================================================================== *)

Module Regex.
Import JsString.

(** The fragment the script uses: character classes, [+] on a class,
    sequence and [?]; every quantifier is greedy. *)
Inductive regex :=
  | Class (p : ascii -> bool)
  | PlusClass (p : ascii -> bool)
  | Seq (r1 r2 : regex)
  | Opt (r : regex).

(** The ways [p+] matches at the start of [s], longest first, each given
    by what is left of [s]. *)
Fixpoint plus_class (p : ascii -> bool) (s : string) : list string :=
  match s with
  | EmptyString => []
  | String c r => if p c then plus_class p r ++ [r] else []
  end.

(** The ways [r] matches at the start of [s], in the order a backtracking
    matcher tries them. *)
Fixpoint ends (r : regex) (s : string) : list string :=
  match r with
  | Class p =>
      match s with
      | String c t => if p c then [t] else []
      | EmptyString => []
      end
  | PlusClass p => plus_class p s
  | Seq r1 r2 => flat_map (ends r2) (ends r1 s)
  | Opt r1 => ends r1 s ++ [s]
  end.

(** [s.match(r)[0]] for a regular expression without the [g] flag: the
    text of the leftmost match, [None] for [null]. *)
Fixpoint exec (r : regex) (s : string) : option string :=
  match ends r s with
  | rest :: _ => Some (substring 0 (String.length s - String.length rest) s)
  | [] =>
      match s with
      | EmptyString => None
      | String _ t => exec r t
      end
  end.

(** [/\d+(\.\d+)?/] *)
Definition price_pattern : regex :=
  Seq (PlusClass is_digit) (Opt (Seq (Class is_dot) (PlusClass is_digit))).

(** The code units a regular expression can consume. *)
Fixpoint accepts (r : regex) (c : ascii) : bool :=
  match r with
  | Class p | PlusClass p => p c
  | Seq r1 r2 => accepts r1 c || accepts r2 c
  | Opt r1 => accepts r1 c
  end.

End Regex.

(* ===================================================================== *)
(** * The page *)
(* ===================================================================== *)

Module Dom.
Import JsString.

Definition attrs := list (string * string).

(** A registered event listener: the event type and the name of the
    function of the script that handles it. *)
Definition listener := (string * string)%type.

#[warnings="-register-all"]
Inductive node :=
  | Text (data : string)
  | Element (tag : string) (attributes : attrs) (listeners : list listener)
      (children : list node).

(** The children of the document node. *)
Definition forest := list node.

(** A reference to a node: the child indices from the document down. *)
Definition path := list nat.

Fixpoint getAttribute (a : attrs) (name : string) : option string :=
  match a with
  | [] => None
  | (k, v) :: r => if String.eqb k name then Some v else getAttribute r name
  end.

Definition children_of (n : node) : list node :=
  match n with
  | Text _ => []
  | Element _ _ _ kids => kids
  end.

Definition set_children (n : node) (kids : list node) : node :=
  match n with
  | Text d => Text d
  | Element t a l _ => Element t a l kids
  end.

Fixpoint list_update {A} (i : nat) (g : A -> A) (l : list A) : list A :=
  match l, i with
  | [], _ => []
  | x :: r, O => g x :: r
  | x :: r, S j => x :: list_update j g r
  end.

Fixpoint list_delete {A} (i : nat) (l : list A) : list A :=
  match l, i with
  | [], _ => []
  | _ :: r, O => r
  | x :: r, S j => x :: list_delete j r
  end.

Fixpoint lookup (f : forest) (p : path) : option node :=
  match p with
  | [] => None
  | i :: q =>
      match nth_error f i with
      | None => None
      | Some n => match q with
                  | [] => Some n
                  | _ :: _ => lookup (children_of n) q
                  end
      end
  end.

(** The node at [p] replaced by its image under [g]. *)
Fixpoint update_at (g : node -> node) (f : forest) (p : path) : forest :=
  match p with
  | [] => f
  | i :: q =>
      match q with
      | [] => list_update i g f
      | _ :: _ =>
          list_update i
            (fun n => set_children n (update_at g (children_of n) q)) f
      end
  end.

(** [node.remove()]: the node at [p] and its subtree leave the page. *)
Fixpoint remove_at (f : forest) (p : path) : forest :=
  match p with
  | [] => f
  | i :: q =>
      match q with
      | [] => list_delete i f
      | _ :: _ =>
          list_update i
            (fun n => set_children n (remove_at (children_of n) q)) f
      end
  end.

(** [parent.insertBefore(child, parent.firstChild)] *)
Definition prepend_child (child : node) (parent : node) : node :=
  match parent with
  | Text d => Text d
  | Element t a l kids => Element t a l (child :: kids)
  end.

Definition same_listener (l1 l2 : listener) : bool :=
  String.eqb (fst l1) (fst l2) && String.eqb (snd l1) (snd l2).

(** [target.addEventListener(type, callback)]: the listener is appended,
    unless one with the same type and callback is registered already. *)
Definition add_listener (l : listener) (n : node) : node :=
  match n with
  | Text d => Text d
  | Element t a ls kids =>
      if existsb (same_listener l) ls then Element t a ls kids
      else Element t a (ls ++ [l]) kids
  end.

(** ** Selectors *)

Inductive compound :=
  | ByClass (c : string)                 (* .c *)
  | ByTag (t : string)                   (* t *)
  | ById (i : string)                    (* #i *)
  | ByTagAttrWord (t a w : string).      (* t[a~="w"] *)

Inductive selector :=
  | Sel (c : compound)                        (* c *)
  | Desc (ancestor : compound) (c : compound). (* ancestor c *)

Definition matches_compound (c : compound) (tag : string) (a : attrs) : bool :=
  match c with
  | ByClass cl =>
      match getAttribute a "class" with
      | Some v => has_token cl v
      | None => false
      end
  | ByTag t => String.eqb tag t
  | ById i =>
      match getAttribute a "id" with
      | Some v => String.eqb v i
      | None => false
      end
  | ByTagAttrWord t k w =>
      String.eqb tag t &&
      match getAttribute a k with
      | Some v => has_token w v
      | None => false
      end
  end.

Definition matches (s : selector) (anc : list (string * attrs))
    (tag : string) (a : attrs) : bool :=
  match s with
  | Sel c => matches_compound c tag a
  | Desc up c =>
      matches_compound c tag a &&
      existsb (fun e => matches_compound up (fst e) (snd e)) anc
  end.

Section FirstMatch.
Context {A : Type} (g : A -> option path).

(** The first element of [l] on which [g] answers, with its index. *)
Fixpoint first_match (i : nat) (l : list A) : option path :=
  match l with
  | [] => None
  | x :: r =>
      match g x with
      | Some p => Some (i :: p)
      | None => first_match (S i) r
      end
  end.
End FirstMatch.

(** The first element in tree order, at or below [n], that the selector
    matches; the path is relative to [n]. *)
Fixpoint find_node (s : selector) (anc : list (string * attrs)) (n : node)
    : option path :=
  match n with
  | Text _ => None
  | Element t a _ kids =>
      if matches s anc t a then Some []
      else first_match (find_node s ((t, a) :: anc)) 0 kids
  end.

(** [document.querySelector(s)] *)
Definition querySelector (s : selector) (f : forest) : option path :=
  first_match (find_node s []) 0 f.

(** [document.getElementById(i)] *)
Definition getElementById (i : string) (f : forest) : option path :=
  querySelector (Sel (ById i)) f.

(** [node.textContent] *)
Fixpoint textContent (n : node) : string :=
  match n with
  | Text d => d
  | Element _ _ _ kids => String.concat "" (map textContent kids)
  end.

(** The number of elements at or below [n] whose id is [i]. *)
Fixpoint count_id (i : string) (n : node) : nat :=
  match n with
  | Text _ => 0
  | Element t a _ kids =>
      (if matches_compound (ById i) t a then 1 else 0)
      + list_sum (map (count_id i) kids)
  end.

Definition count_id_forest (i : string) (f : forest) : nat :=
  list_sum (map (count_id i) f).

End Dom.

(* ===================================================================== *)
(** * The browser: state, exceptions, network, number formatting *)
(* ===================================================================== *)

Module Browser.
Import JsString JsNumber Dom.

(** What a [throw] or a rejected promise carries. *)
Inductive exn :=
  | TypeError
  | RangeError
  | Error (message : string)
  | Rejected (reason : string).

(** One call of [console.error(label, error)]. *)
Definition log_entry := (string * exn)%type.

Record browser := {
  document : forest;
  console : list log_entry;     (* oldest first *)
  requests : list string;       (* the URLs fetched, oldest first *)
  unhandled : list exn          (* rejections of promises nobody awaits *)
}.

Definition with_document (f : forest) (b : browser) : browser :=
  {| document := f; console := console b; requests := requests b;
     unhandled := unhandled b |}.

Definition with_console (c : list log_entry) (b : browser) : browser :=
  {| document := document b; console := c; requests := requests b;
     unhandled := unhandled b |}.

Definition with_requests (r : list string) (b : browser) : browser :=
  {| document := document b; console := console b; requests := r;
     unhandled := unhandled b |}.

Definition with_unhandled (u : list exn) (b : browser) : browser :=
  {| document := document b; console := console b; requests := requests b;
     unhandled := u |}.

Inductive outcome (A : Type) :=
  | Ret (a : A)
  | Throw (e : exn).
Arguments Ret {A} a.
Arguments Throw {A} e.

(** A computation of the script: it reads and changes the browser and
    either returns or throws; what it changed before a throw stays. *)
Definition M (A : Type) := browser -> outcome A * browser.

Definition ret {A} (a : A) : M A := fun b => (Ret a, b).

Definition throw {A} (e : exn) : M A := fun b => (Throw e, b).

Definition bind {A B} (c : M A) (k : A -> M B) : M B :=
  fun b =>
    match c b with
    | (Ret a, b') => k a b'
    | (Throw e, b') => (Throw e, b')
    end.

Definition try_catch {A} (c : M A) (h : exn -> M A) : M A :=
  fun b =>
    match c b with
    | (Ret a, b') => (Ret a, b')
    | (Throw e, b') => h e b'
    end.

Definition gets {A} (g : browser -> A) : M A := fun b => (Ret (g b), b).

Definition modify (g : browser -> browser) : M unit := fun b => (Ret tt, g b).

Declare Scope js_scope.
Delimit Scope js_scope with js.
Notation "x <- c ;; k" := (bind c (fun x => k))
  (at level 61, c at next level, right associativity) : js_scope.
Notation "c ;; k" := (bind c (fun _ => k))
  (at level 61, right associativity) : js_scope.
Local Open Scope js_scope.

(** A call of an async function that is not awaited: the caller goes on
    whatever happens; a throw inside becomes a rejection nobody handles.
    The call is run to its end before the caller continues. *)
Definition call_async (c : M unit) : M unit :=
  fun b =>
    match c b with
    | (Ret _, b') => (Ret tt, b')
    | (Throw e, b') => (Ret tt, with_unhandled (unhandled b' ++ [e]) b')
    end.

Fixpoint mapM {A B} (g : A -> M B) (l : list A) : M (list B) :=
  match l with
  | [] => ret []
  | x :: r => y <- g x ;; ys <- mapM g r ;; ret (y :: ys)
  end.

(** ** The DOM interface *)

(** An element reference or [null]. *)
Definition ref := option path.

Definition document_querySelector (s : selector) : M ref :=
  gets (fun b => querySelector s (document b)).

Definition document_getElementById (i : string) : M ref :=
  gets (fun b => getElementById i (document b)).

(** A member access on [null] throws a TypeError. *)
Definition deref (r : ref) : M node :=
  match r with
  | None => throw TypeError
  | Some p =>
      n <- gets (fun b => lookup (document b) p) ;;
      match n with
      | Some e => ret e
      | None => throw TypeError
      end
  end.

Definition element_getAttribute (r : ref) (name : string) : M (option string) :=
  n <- deref r ;;
  match n with
  | Element _ a _ _ => ret (getAttribute a name)
  | Text _ => throw TypeError
  end.

Definition element_textContent (r : ref) : M string :=
  n <- deref r ;; ret (textContent n).

Definition element_remove (r : ref) : M unit :=
  match r with
  | None => throw TypeError
  | Some p => modify (fun b => with_document (remove_at (document b) p) b)
  end.

Definition element_insertFirst (r : ref) (child : node) : M unit :=
  match r with
  | None => throw TypeError
  | Some p =>
      modify (fun b => with_document (update_at (prepend_child child) (document b) p) b)
  end.

Definition element_addEventListener (r : ref) (type handler : string) : M unit :=
  match r with
  | None => throw TypeError
  | Some p =>
      modify (fun b =>
        with_document (update_at (add_listener (type, handler)) (document b) p) b)
  end.

Definition console_error (label : string) (e : exn) : M unit :=
  modify (fun b => with_console (console b ++ [(label, e)]) b).

(** ** The network *)

(** A response: its [ok] flag, its status, and its body as text ([None]
    when reading the body fails). *)
Record response := {
  ok : bool;
  status : nat;
  body : option string
}.

(** How one [fetch] settles: rejected (a failure at the network level)
    or resolved with a response. *)
Inductive fetch_result :=
  | NetworkFailure (reason : string)
  | Resolved (r : response).

(** [await fetch(url)], when the request settles as [net]. *)
Definition fetch (net : fetch_result) (url : string) : M response :=
  modify (fun b => with_requests (requests b ++ [url]) b) ;;
  match net with
  | NetworkFailure reason => throw (Rejected reason)
  | Resolved r => ret r
  end.

(** [await response.text()] *)
Definition response_text (r : response) : M string :=
  match body r with
  | Some t => ret t
  | None => throw (Rejected "body")
  end.

(** ** Intl.NumberFormat *)

(** The locale data of ['en-US'] that the formatter takes from the
    platform: what the currency sign of the pattern becomes for a currency
    code, and the formatted text of a Number that is not NaN. *)
Record locale_data := {
  currency_sign : string -> string;
  format_numeric : string -> number -> string
}.

(** [IsWellFormedCurrencyCode]: three ASCII letters. *)
Definition well_formed_currency_code (c : string) : bool :=
  (String.length c =? 3)%nat && forallb_string is_ascii_letter c.

(** [new Intl.NumberFormat('en-US', {style: 'currency', currency})]: the
    upper-cased code the formatter keeps.  An [undefined] currency is a
    TypeError, a code that is not well formed a RangeError. *)
Definition NumberFormat_currency (currency : value) : M string :=
  match currency with
  | Undefined => throw TypeError
  | Str c =>
      if well_formed_currency_code c then ret (map_string to_upper c)
      else throw RangeError
  end.

(** [formatter.format(x)]: for NaN the pattern of the locale with the
    text NaN in the place of the number. *)
Definition NumberFormat_format (L : locale_data) (code : string) (x : number)
    : string :=
  if isNaN x then currency_sign L code ++ "NaN"
  else format_numeric L code x.

End Browser.

(* ===================================================================== *)
(** * The script *)
(* ===================================================================== *)

Module Script.
Import JsString JsNumber Regex Dom Browser.
Local Open Scope js_scope.

Definition GOOGLE_SHEETS_URL : string :=
  "https://docs.google.com/spreadsheets/d/e/<SHEET_ID>/pub?output=csv".

Record RateRecord := {
  currency : value;
  rate : number
}.

(** The callback of [rows.map]: [const [currency, rate] = row.split(',')]. *)
Definition parseCsvRow (row : string) : RateRecord :=
  let fields := split "," row in
  {| currency := index fields 0;
     rate := parseFloat (index fields 1) |}.

Definition parseCsvRows (rows : list string) : list RateRecord :=
  map parseCsvRow rows.

Definition string_of_nat (n : nat) : string :=
  NilZero.string_of_uint (Nat.to_uint n).

Definition newline : ascii := ascii_of_nat 10.

(** The [try] block either yields the response or, through [catch],
    ends the function with the empty array. *)
Definition getExchangeRates (net : fetch_result) : M (list RateRecord) :=
  attempt <-
    try_catch
      (response <- fetch net GOOGLE_SHEETS_URL ;;
       if negb (ok response)
       then throw (Error ("HTTP error! status: " ++ string_of_nat (status response)))
       else ret (inl response))
      (fun error =>
         console_error "Error fetching exchange rates:" error ;;
         ret (inr [])) ;;
  match attempt with
  | inr early => ret early
  | inl response =>
      csv <- response_text response ;;
      let rows := split newline csv in
      ret (parseCsvRows rows)
  end.

(** [text.match(/\d+(\.\d+)?/)[0].replace(/,/g, '')]; indexing the [null]
    of a failed match is a TypeError. *)
Definition priceText (text : string) : M string :=
  match exec price_pattern text with
  | None => throw TypeError
  | Some m => ret (remove_all "," m)
  end.

Record FormattedRate := {
  fcurrency : value;
  fvalue : string
}.

Definition block_id : string := "multi-currency-display".

Definition heading_text : string := "Approximate price in other currencies".

Definition listItemElement (f : FormattedRate) : node :=
  Element "li" [] [] [Text (ToString (fcurrency f) ++ ": " ++ fvalue f)].

Definition headingElement : node :=
  Element "p" [] [] [Text heading_text].

Definition listElement (fs : list FormattedRate) : node :=
  Element "ul" [] [] (map listItemElement fs).

Definition parentElement (fs : list FormattedRate) : node :=
  Element "div" [("id", block_id)] [] [headingElement; listElement fs].

(** [pageType.getAttribute('content') == 'product'] *)
Definition is_product (content : option string) : bool :=
  match content with
  | Some c => String.eqb c "product"
  | None => false
  end.

Section WithLocale.
Variable L : locale_data.

(** The callback of [rates.map]: a formatter for the currency of the
    record, then the product formatted. *)
Definition formatRate (price : number) (r : RateRecord) : M FormattedRate :=
  code <- NumberFormat_currency (currency r) ;;
  ret {| fcurrency := currency r;
         fvalue := NumberFormat_format L code (mul price (rate r)) |}.

Definition displayCurrencies (net : fetch_result) : M unit :=
  pageType <- document_querySelector (Sel (ByTagAttrWord "meta" "property" "og:type")) ;;
  content <- element_getAttribute pageType "content" ;;
  if is_product content then
    multiCurrencyElement <- document_getElementById block_id ;;
    match multiCurrencyElement with
    | Some _ => element_remove multiCurrencyElement
    | None => ret tt
    end ;;
    rates <- getExchangeRates net ;;
    priceElement <- document_querySelector (Sel (ByClass "product-price")) ;;
    text <- element_textContent priceElement ;;
    matched <- priceText text ;;
    let price := parseFloat (Str matched) in
    formattedRates <- mapM (formatRate price) rates ;;
    detailsElement <- document_querySelector (Sel (ByClass "ProductItem-details-excerpt")) ;;
    element_insertFirst detailsElement (parentElement formattedRates)
  else ret tt.

Definition initCurrencyConversion (net : fetch_result) : M unit :=
  call_async (displayCurrencies net) ;;
  variantSelect <-
    document_querySelector (Desc (ByClass "variant-select-wrapper") (ByTag "select")) ;;
  element_addEventListener variantSelect "change" "displayCurrencies".

End WithLocale.

End Script.

Import JsString JsNumber Regex Dom Browser Script.
Local Open Scope js_scope.

(* ===================================================================== *)
(** * What the specification's words mean on this model *)
(* ===================================================================== *)

Module Spec.

(** The line cut at its first [sep]: the text before it and the text
    after it; [None] when the line has no [sep]. *)
Fixpoint cut (sep : ascii) (s : string) : option (string * string) :=
  match s with
  | EmptyString => None
  | String c r =>
      if Ascii.eqb c sep then Some (EmptyString, r)
      else match cut sep r with
           | Some (a, b) => Some (String c a, b)
           | None => None
           end
  end.

(** A text starts with a numeric literal: [Infinity], a digit, or a
    decimal point and a digit. *)
Definition starts_literal (s : string) : bool :=
  prefix "Infinity" s ||
  match s with
  | EmptyString => false
  | String c r =>
      is_digit c ||
      (is_dot c && match r with
                   | String d _ => is_digit d
                   | EmptyString => false
                   end)
  end.

(** A field has a numeric prefix: after leading white space and an
    optional sign it starts with a numeric literal. *)
Definition has_numeric_prefix (s : string) : bool :=
  starts_literal (snd (signed (trim_start s))).

(** A field is numeric: the whole of it is a decimal number, an optional
    sign, digits, and optionally a decimal point and digits. *)
Definition numeric_field (s : string) : bool :=
  let '(ip, r1) := span_digits (snd (signed s)) in
  negb (is_empty ip) &&
  match fraction r1 with
  | Some (fp, r3) => negb (is_empty fp) && is_empty r3
  | None => is_empty r1
  end.

(** The second field of a line, [undefined] when the line has no comma. *)
Definition second_field (line : string) : value := index (split "," line) 1.

(** The fetch failed at the network level or the status is no success. *)
Definition fetch_failed (net : fetch_result) : bool :=
  match net with
  | NetworkFailure _ => true
  | Resolved r => negb (ok r)
  end.

(** What the [catch] block of [getExchangeRates] receives. *)
Definition failure_of (net : fetch_result) : exn :=
  match net with
  | NetworkFailure reason => Rejected reason
  | Resolved r => Error ("HTTP error! status: " ++ string_of_nat (status r))
  end.

(** The browser once a request to [url] is on record. *)
Definition requested (url : string) (b : browser) : browser :=
  with_requests (requests b ++ [url]) b.

(** The browser once [console.error(label, e)] is on record. *)
Definition logged (label : string) (e : exn) (b : browser) : browser :=
  with_console (console b ++ [(label, e)]) b.

(** The content of the page's og:type marker: [None] when the page has
    no such marker, [Some None] when the marker has no content. *)
Definition og_type (f : forest) : option (option string) :=
  match querySelector (Sel (ByTagAttrWord "meta" "property" "og:type")) f with
  | None => None
  | Some p =>
      match lookup f p with
      | Some (Element _ a _ _) => Some (getAttribute a "content")
      | _ => None
      end
  end.

Definition is_product_page (f : forest) : bool :=
  match og_type f with
  | Some content => is_product content
  | None => false
  end.

(** The text of the primary price element, when the page has one. *)
Definition price_text (f : forest) : option string :=
  match querySelector (Sel (ByClass "product-price")) f with
  | None => None
  | Some p => option_map textContent (lookup f p)
  end.

(** The details container, when the page has one. *)
Definition details (f : forest) : option path :=
  querySelector (Sel (ByClass "ProductItem-details-excerpt")) f.

(** The variant-selection control, when the page has one. *)
Definition variant_select (f : forest) : option path :=
  querySelector (Desc (ByClass "variant-select-wrapper") (ByTag "select")) f.

(** The page without the first element whose id is the block's. *)
Definition remove_block (f : forest) : forest :=
  match getElementById block_id f with
  | Some p => remove_at f p
  | None => f
  end.

(** The number of display blocks on the page. *)
Definition blocks (f : forest) : nat := count_id_forest block_id f.

(** The first answer of [g] along a list. *)
Fixpoint first_some {A B} (g : A -> option B) (l : list A) : option B :=
  match l with
  | [] => None
  | x :: r =>
      match g x with
      | Some y => Some y
      | None => first_some g r
      end
  end.

(** The tag and the attributes of the first element, in tree order, at or
    below [n], that the selector matches. *)
Fixpoint first_element (s : selector) (anc : list (string * attrs)) (n : node)
    : option (string * attrs) :=
  match n with
  | Text _ => None
  | Element t a _ kids =>
      if matches s anc t a then Some (t, a)
      else first_some (first_element s ((t, a) :: anc)) kids
  end.

(** The node a path relative to [n] leads to. *)
Definition node_at (n : node) (q : path) : option node :=
  match q with
  | [] => Some n
  | _ :: _ => lookup (children_of n) q
  end.

End Spec.
Import Spec.

(* ===================================================================== *)
(** * Pages and feeds for the examples *)
(* ===================================================================== *)

Module Sample.

(** Locale data for the examples; only the currency signs matter there. *)
Definition locale : locale_data :=
  {| currency_sign := fun c =>
       if String.eqb c "USD" then "$"
       else if String.eqb c "GBP" then "GBP " else (c ++ " ")%string;
     format_numeric := fun c x => (c ++ " <amount>")%string |}.

Definition meta_og (content : string) : node :=
  Element "meta" [("property", "og:type"); ("content", content)] [] [].

Definition price_element (text : string) : node :=
  Element "div" [("class", "product-price")] [] [Text text].

Definition details_element : node :=
  Element "div" [("class", "ProductItem-details-excerpt")] []
    [Element "p" [] [] [Text "A fine product."]].

Definition variant_control : node :=
  Element "div" [("class", "variant-select-wrapper")] []
    [Element "select" [] [] []].

Definition page (type price : string) (extra : list node) : forest :=
  [Element "html" [] []
     [Element "head" [] [] [meta_og type];
      Element "body" [] [] (price_element price :: details_element :: extra)]].

(** A product page with a variant control. *)
Definition product_page : forest := page "product" "From $45.99" [variant_control].

(** A product page of a product without variants. *)
Definition product_page_no_variants : forest := page "product" "$45.99" [].

(** A product page whose price has a thousands separator. *)
Definition product_page_thousands : forest :=
  page "product" "$1,234.56" [variant_control].

(** A product page whose price text has no digit. *)
Definition product_page_no_price : forest :=
  page "product" "Sold out" [variant_control].

(** A page that is no product page. *)
Definition blog_page : forest := page "article" "" [].

Definition start (f : forest) : browser :=
  {| document := f; console := []; requests := []; unhandled := [] |}.

Definition feed (csv : string) : fetch_result :=
  Resolved {| ok := true; status := 200; body := Some csv |}.

Definition feed_404 : fetch_result :=
  Resolved {| ok := false; status := 404; body := Some "Not Found" |}.

Definition feed_offline : fetch_result := NetworkFailure "Failed to fetch".

(** Two rows, no newline after the last. *)
Definition csv_two_rows : string :=
  ("USD,1.0" ++ String newline "EUR,0.92")%string.

(** One row and the newline that ends it. *)
Definition csv_trailing_newline : string :=
  ("USD,1.0" ++ String newline "")%string.

End Sample.

(* ===================================================================== *)
(** * A cycle in two phases *)
(* ===================================================================== *)

(** [displayCurrencies] runs without interruption up to its first
    [await], the one of the [fetch] inside [getExchangeRates]; what
    follows runs when the request has settled.  The two phases, cut at
    that [await]. *)
Module Phases.

(** [fetch(url)] up to the request: the promise is pending. *)
Definition fetch_send (url : string) : M unit :=
  modify (fun b => with_requests (requests b ++ [url]) b).

(** The [await] of the pending promise, when the request settles as
    [net]. *)
Definition fetch_settle (net : fetch_result) : M response :=
  match net with
  | NetworkFailure reason => throw (Rejected reason)
  | Resolved r => ret r
  end.

(** [getExchangeRates] from the moment its request has settled. *)
Definition getExchangeRates_resume (net : fetch_result) : M (list RateRecord) :=
  attempt <-
    try_catch
      (response <- fetch_settle net ;;
       if negb (ok response)
       then throw (Error ("HTTP error! status: " ++ string_of_nat (status response)))
       else ret (inl response))
      (fun error =>
         console_error "Error fetching exchange rates:" error ;;
         ret (inr [])) ;;
  match attempt with
  | inr early => ret early
  | inl response =>
      csv <- response_text response ;;
      let rows := split newline csv in
      ret (parseCsvRows rows)
  end.

(** The first phase: the guard, the removal of the old block, the
    request.  It answers whether a request is now pending. *)
Definition displayCurrencies_begin : M bool :=
  pageType <- document_querySelector (Sel (ByTagAttrWord "meta" "property" "og:type")) ;;
  content <- element_getAttribute pageType "content" ;;
  if is_product content then
    multiCurrencyElement <- document_getElementById block_id ;;
    match multiCurrencyElement with
    | Some _ => element_remove multiCurrencyElement
    | None => ret tt
    end ;;
    fetch_send GOOGLE_SHEETS_URL ;;
    ret true
  else ret false.

(** The second phase: the rates, the price, the new block. *)
Definition displayCurrencies_resume (L : locale_data) (net : fetch_result) : M unit :=
  rates <- getExchangeRates_resume net ;;
  priceElement <- document_querySelector (Sel (ByClass "product-price")) ;;
  text <- element_textContent priceElement ;;
  matched <- priceText text ;;
  let price := parseFloat (Str matched) in
  formattedRates <- mapM (formatRate L price) rates ;;
  detailsElement <- document_querySelector (Sel (ByClass "ProductItem-details-excerpt")) ;;
  element_insertFirst detailsElement (parentElement formattedRates).

End Phases.
Import Phases.

(* ===================================================================== *)
(** * More observations *)
(* ===================================================================== *)

Module Observe.

Definition carriage_return : ascii := ascii_of_nat 13.

(** The decimal point and the digits a text starts with, when it starts
    with a decimal point and a digit. *)
Definition fraction_text (rest : string) : string :=
  match rest with
  | EmptyString => EmptyString
  | String c r =>
      if is_dot c && negb (is_empty (fst (span_digits r)))
      then String c (fst (span_digits r))
      else EmptyString
  end.

(** The first run of digits of a text, with the decimal point and the
    digits that follow it directly, if any. *)
Fixpoint first_number (s : string) : option string :=
  match s with
  | EmptyString => None
  | String c r =>
      if is_digit c
      then Some (fst (span_digits s) ++ fraction_text (snd (span_digits s)))%string
      else first_number r
  end.

(** The currency of the record is a well-formed code. *)
Definition well_formed_record (r : RateRecord) : bool :=
  match currency r with
  | Str c => well_formed_currency_code c
  | Undefined => false
  end.

(** The list entry of a record: its currency as it is in the feed, and
    the product of price and rate formatted for the upper-cased code. *)
Definition entry (L : locale_data) (price : number) (r : RateRecord) : FormattedRate :=
  {| fcurrency := currency r;
     fvalue := NumberFormat_format L (map_string to_upper (ToString (currency r)))
                 (mul price (rate r)) |}.

(** A feed of two rows whose lines end with CR LF. *)
Definition csv_crlf : string :=
  ("USD,1.0" ++ String carriage_return (String newline "EUR,0.92"))%string.

(** A feed of three rows whose second row starts with a name instead
    of a currency code. *)
Definition csv_bad_row : string :=
  ("USD,1.0" ++ String newline ("Euro,0.92" ++ String newline "GBP,0.79"))%string.

(** A product page that already shows the block twice. *)
Definition product_page_two_blocks : forest :=
  [Element "html" [] []
     [Element "head" [] [] [Sample.meta_og "product"];
      Element "body" [] []
        [Sample.price_element "$45.99";
         Element "div" [("class", "ProductItem-details-excerpt")] []
           [parentElement []; parentElement []]]]].

(** A page without an og:type marker. *)
Definition page_without_marker : forest :=
  [Element "html" [] []
     [Element "head" [] [] [Element "title" [] [] [Text "Shop"]];
      Element "body" [] [] [Sample.price_element "$45.99"; Sample.details_element]]].

End Observe.
Import Observe.

(* ===================================================================== *)
(** * Code units *)
(* ===================================================================== *)

Ltac ascii_cases c :=
  destruct c as [[] [] [] [] [] [] [] []]; try reflexivity; try discriminate.

Lemma digit_not_white c : is_digit c = true -> is_white_space c = false.
Proof. ascii_cases c. Qed.

Lemma digit_not_plus c : is_digit c = true -> Ascii.eqb c "+" = false.
Proof. ascii_cases c. Qed.

Lemma digit_not_minus c : is_digit c = true -> Ascii.eqb c "-" = false.
Proof. ascii_cases c. Qed.

Lemma digit_not_comma c : is_digit c = true -> Ascii.eqb c "," = false.
Proof. ascii_cases c. Qed.

Lemma digit_not_dot c : is_digit c = true -> is_dot c = false.
Proof. ascii_cases c. Qed.

Lemma dot_not_comma c : is_dot c = true -> Ascii.eqb c "," = false.
Proof. ascii_cases c. Qed.

Lemma digit_not_I c : is_digit c = true -> c <> "I"%char.
Proof. intros H ->. discriminate H. Qed.

Lemma prefix_Infinity_digit c r :
  is_digit c = true -> prefix "Infinity" (String c r) = false.
Proof.
  intros H.
  change (prefix "Infinity" (String c r))
    with (if ascii_dec "I" c then prefix "nfinity" r else false).
  destruct (ascii_dec "I" c) as [E | E]; [| reflexivity].
  subst c. discriminate H.
Qed.

(* ===================================================================== *)
(** * split *)
(* ===================================================================== *)

Lemma split_not_nil sep s : split sep s <> [].
Proof.
  destruct s as [| c r]; simpl; [discriminate |].
  destruct (Ascii.eqb c sep); [discriminate |].
  destruct (split sep r); discriminate.
Qed.

(** A text without the separator is one field. *)
Lemma split_no_sep sep s : contains sep s = false -> split sep s = [s].
Proof.
  induction s as [| c r IH]; simpl; intros H; [reflexivity |].
  apply orb_false_iff in H as [Hc Hr].
  rewrite Hc, (IH Hr). reflexivity.
Qed.

(** The first field ends at the first separator. *)
Lemma split_cut sep s a b :
  cut sep s = Some (a, b) -> split sep s = a :: split sep b.
Proof.
  revert a b. induction s as [| c r IH]; simpl; intros a b H; [discriminate |].
  destruct (Ascii.eqb c sep).
  - injection H as <- <-. reflexivity.
  - destruct (cut sep r) as [[a' b'] |]; [| discriminate].
    injection H as <- <-. rewrite (IH a' b' eq_refl). reflexivity.
Qed.

Lemma cut_none sep s : cut sep s = None -> contains sep s = false.
Proof.
  induction s as [| c r IH]; simpl; intros H; [reflexivity |].
  destruct (Ascii.eqb c sep); [discriminate |].
  destruct (cut sep r) as [[a b] |]; [discriminate |].
  simpl. apply IH. reflexivity.
Qed.

Lemma cut_some sep s a b :
  cut sep s = Some (a, b) -> s = (a ++ String sep b)%string /\ contains sep a = false.
Proof.
  revert a b. induction s as [| c r IH]; simpl; intros a b H; [discriminate |].
  destruct (Ascii.eqb c sep) eqn:E.
  - injection H as <- <-. apply Ascii.eqb_eq in E. subst c. split; reflexivity.
  - destruct (cut sep r) as [[a' b'] |]; [| discriminate].
    injection H as <- <-. destruct (IH a' b' eq_refl) as [-> Hc].
    split; [reflexivity |]. simpl. rewrite E, Hc. reflexivity.
Qed.

(** The first field of a text, and how the text continues after it. *)
Lemma split_head sep s :
  exists f fs, split sep s = f :: fs /\
    (s = f \/ exists r, s = (f ++ String sep r)%string).
Proof.
  destruct (cut sep s) as [[a b] |] eqn:E.
  - exists a, (split sep b). split; [apply split_cut, E |].
    right. exists b. apply (cut_some _ _ _ _ E).
  - exists s, []. split; [apply split_no_sep, cut_none, E | left; reflexivity].
Qed.

(* ===================================================================== *)
(** * parseFloat *)
(* ===================================================================== *)

(** ** A comma ends the literal *)

Section CommaStops.
Variable r : string.

Let tail (t : string) : string := (t ++ String "," r)%string.

Lemma trim_start_comma a : trim_start (tail a) = tail (trim_start a).
Proof.
  induction a as [| c a IH]; [reflexivity |].
  unfold tail in *. simpl. destruct (is_white_space c); [exact IH | reflexivity].
Qed.

Lemma signed_comma t : signed (tail t) = (fst (signed t), tail (snd (signed t))).
Proof.
  destruct t as [| c t]; [reflexivity |].
  unfold tail. simpl.
  destruct (Ascii.eqb c "+"); [reflexivity |].
  destruct (Ascii.eqb c "-"); reflexivity.
Qed.

Lemma span_digits_comma t :
  span_digits (tail t) = (fst (span_digits t), tail (snd (span_digits t))).
Proof.
  induction t as [| c t IH]; [reflexivity |].
  unfold tail in *. simpl. destruct (is_digit c); [| reflexivity].
  rewrite IH. destruct (span_digits t). reflexivity.
Qed.

Lemma fraction_comma t :
  fraction (tail t) =
  match fraction t with
  | Some (fp, r3) => Some (fp, tail r3)
  | None => None
  end.
Proof.
  destruct t as [| c t]; [reflexivity |].
  unfold tail. simpl. destruct (is_dot c); [| reflexivity].
  fold (tail t). rewrite span_digits_comma. destruct (span_digits t). reflexivity.
Qed.

Lemma exponent_part_comma t : exponent_part (tail t) = exponent_part t.
Proof.
  destruct t as [| c t]; [reflexivity |].
  unfold tail. simpl. destruct (Ascii.eqb c "e" || Ascii.eqb c "E"); [| reflexivity].
  fold (tail t). rewrite signed_comma. destruct (signed t) as [neg t'].
  simpl fst. simpl snd. rewrite span_digits_comma. reflexivity.
Qed.

Lemma prefix_comma p t :
  contains "," p = false -> prefix p (tail t) = prefix p t.
Proof.
  revert t. induction p as [| a p IH]; intros t H;
    [destruct t; reflexivity |].
  simpl in H. apply orb_false_iff in H as [Ha Hp].
  destruct t as [| c t].
  - unfold tail. simpl. destruct (ascii_dec a ","); [| reflexivity].
    subst a. discriminate Ha.
  - unfold tail. simpl. destruct (ascii_dec a c); [| reflexivity].
    apply IH, Hp.
Qed.

Lemma unsigned_literal_comma neg t :
  unsigned_literal neg (tail t) = unsigned_literal neg t.
Proof.
  unfold unsigned_literal.
  rewrite prefix_comma by reflexivity.
  destruct (prefix "Infinity" t); [reflexivity |].
  rewrite span_digits_comma. destruct (span_digits t) as [ip r1].
  simpl fst. simpl snd. rewrite fraction_comma.
  destruct (fraction r1) as [[fp r3] |].
  - rewrite exponent_part_comma. reflexivity.
  - rewrite exponent_part_comma. reflexivity.
Qed.

(** Text after a comma never changes what [parseFloat] reads. *)
Lemma parseFloat_string_comma a :
  parseFloat_string (tail a) = parseFloat_string a.
Proof.
  unfold parseFloat_string. rewrite trim_start_comma, signed_comma.
  destruct (signed (trim_start a)) as [neg t]. apply unsigned_literal_comma.
Qed.
End CommaStops.

(** ** Rounding never yields NaN *)

Lemma iter_pos_invariant {A} (f : A -> A) (P : A -> Prop) :
  (forall x, P x -> P (f x)) -> forall p x, P x -> P (iter_pos f p x).
Proof.
  intros Hf. induction p as [p IH | p IH |]; intros x Hx; simpl.
  - apply IH, IH, Hf, Hx.
  - apply IH, IH, Hx.
  - apply Hf, Hx.
Qed.

Lemma shr_1_nonneg mrs : (0 <= shr_m mrs)%Z -> (0 <= shr_m (shr_1 mrs))%Z.
Proof.
  destruct mrs as [m r s]. simpl.
  destruct m as [| [p | p |] | [p | p |]]; simpl; lia.
Qed.

Lemma shr_nonneg mrs e n :
  (0 <= shr_m mrs)%Z -> (0 <= shr_m (fst (shr mrs e n)))%Z.
Proof.
  intros H. destruct n as [| p | p]; simpl; try exact H.
  apply (iter_pos_invariant shr_1 (fun x => (0 <= shr_m x)%Z)); [| exact H].
  apply shr_1_nonneg.
Qed.

Lemma shr_fexp_nonneg m e l :
  (0 <= m)%Z -> (0 <= shr_m (fst (shr_fexp prec emax m e l)))%Z.
Proof.
  intros H. unfold shr_fexp. apply shr_nonneg.
  destruct l as [| []]; exact H.
Qed.

Lemma round_nearest_even_nonneg m l :
  (0 <= m)%Z -> (0 <= round_nearest_even m l)%Z.
Proof.
  intros H. destruct l as [| []]; simpl; try lia.
  destruct (Z.even m); lia.
Qed.

Lemma binary_round_aux_not_nan s m e l :
  (0 <= m)%Z -> binary_round_aux prec emax s m e l <> S754_nan.
Proof.
  intros H. unfold binary_round_aux.
  pose proof (shr_fexp_nonneg m e l H) as H1.
  destruct (shr_fexp prec emax m e l) as [mrs' e']. simpl in H1.
  pose proof (shr_fexp_nonneg _ e' loc_Exact
                (round_nearest_even_nonneg _ (loc_of_shr_record mrs') H1)) as H2.
  destruct (shr_fexp prec emax _ e' loc_Exact) as [mrs'' e'']. simpl in H2.
  destruct (shr_m mrs'') as [| p | p]; [discriminate | | lia].
  destruct (Z.leb e'' (emax - prec)); discriminate.
Qed.

Lemma binary_normalize_not_nan m e s :
  binary_normalize prec emax m e s <> S754_nan.
Proof.
  destruct m as [| p | p]; simpl; [discriminate | |];
    unfold binary_round;
    destruct (shl_align _ _ _) as [mz ez];
    apply binary_round_aux_not_nan; lia.
Qed.

Lemma SFdiv_finite_not_nan s1 m1 e1 s2 m2 e2 :
  SFdiv prec emax (S754_finite s1 m1 e1) (S754_finite s2 m2 e2) <> S754_nan.
Proof.
  unfold SFdiv, SFdiv_core_binary.
  set (e' := Z.min _ _). set (sh := (e1 - e2 - e')%Z).
  set (m' := match sh with Z0 => Z.pos m1 | Z.pos _ => Z.shiftl (Z.pos m1) sh | Z.neg _ => 0%Z end).
  assert (Hm : (0 <= m')%Z).
  { unfold m'. destruct sh; try lia. apply Z.shiftl_nonneg. lia. }
  pose proof (Z.div_eucl_eq m' (Z.pos m2) ltac:(lia)) as Heq.
  pose proof (Z.mod_pos_bound m' (Z.pos m2) ltac:(lia)) as Hmod.
  unfold Z.modulo in Hmod.
  destruct (Z.div_eucl m' (Z.pos m2)) as [q rem].
  apply binary_round_aux_not_nan. nia.
Qed.

Lemma round_decimal_not_nan neg m k : round_decimal neg m k <> NaN.
Proof.
  unfold round_decimal, NaN. destruct m as [| p]; [discriminate |].
  destruct (0 <=? k)%Z.
  - apply binary_normalize_not_nan.
  - apply SFdiv_finite_not_nan.
Qed.

(** ** When parseFloat yields NaN *)

Lemma span_digits_empty s :
  is_empty (fst (span_digits s)) =
  match s with
  | EmptyString => true
  | String c _ => negb (is_digit c)
  end.
Proof.
  destruct s as [| c s]; [reflexivity |].
  simpl. destruct (is_digit c); [| reflexivity].
  destruct (span_digits s). reflexivity.
Qed.

Lemma span_digits_no_digit s :
  is_empty (fst (span_digits s)) = true -> span_digits s = (EmptyString, s).
Proof.
  destruct s as [| c s]; [reflexivity |].
  simpl. destruct (is_digit c); [| reflexivity].
  destruct (span_digits s). discriminate.
Qed.

Lemma unsigned_literal_nan neg t :
  unsigned_literal neg t = NaN <-> starts_literal t = false.
Proof.
  unfold unsigned_literal, starts_literal.
  destruct (prefix "Infinity" t); [split; discriminate |].
  rewrite orb_false_l.
  pose proof (span_digits_empty t) as He.
  destruct (is_empty (fst (span_digits t))) eqn:Hip.
  - rewrite (span_digits_no_digit t Hip).
    destruct t as [| c r]; [split; reflexivity |].
    apply eq_sym, negb_true_iff in He. rewrite He. rewrite orb_false_l.
    simpl fraction. destruct (is_dot c); simpl.
    + pose proof (span_digits_empty r) as Hr.
      destruct (span_digits r) as [fp r3]. simpl in Hr. rewrite Hr.
      destruct r as [| d r']; [split; reflexivity |].
      destruct (is_digit d); simpl; [| split; reflexivity].
      split; [intros H; apply round_decimal_not_nan in H; contradiction | discriminate].
    + split; reflexivity.
  - destruct t as [| c r]; [discriminate He |].
    apply eq_sym, negb_false_iff in He. rewrite He. simpl orb.
    destruct (span_digits (String c r)) as [ip r1]. simpl in Hip. rewrite Hip.
    destruct (fraction r1) as [[fp r3] |]; simpl;
      (split; [intros H; apply round_decimal_not_nan in H; contradiction | discriminate]).
Qed.

(** [parseFloat] yields NaN exactly on the texts without a numeric prefix. *)
Lemma parseFloat_string_nan s :
  parseFloat_string s = NaN <-> has_numeric_prefix s = false.
Proof.
  unfold parseFloat_string, has_numeric_prefix.
  destruct (signed (trim_start s)) as [neg t]. apply unsigned_literal_nan.
Qed.

Lemma parseFloat_undefined : parseFloat Undefined = NaN.
Proof. reflexivity. Qed.

(* ===================================================================== *)
(** * parseCsvRows *)
(* ===================================================================== *)

Lemma index_split_1 line a b :
  cut "," line = Some (a, b) ->
  parseFloat (index (split "," line) 1) = parseFloat (Str b).
Proof.
  intros H. rewrite (split_cut _ _ _ _ H).
  destruct (split_head "," b) as (f & fs & Hs & Hb).
  rewrite Hs. unfold index. simpl. unfold parseFloat. simpl.
  destruct Hb as [-> | [r ->]]; [reflexivity |].
  symmetry. apply parseFloat_string_comma.
Qed.

(** The record of a line is the one obtained by cutting the line at its
    first comma and reading the rest of the line with [parseFloat]. *)
Lemma parseCsvRow_first_comma line a b :
  cut "," line = Some (a, b) ->
  parseCsvRow line = {| currency := Str a; rate := parseFloat (Str b) |}.
Proof.
  intros H. unfold parseCsvRow. cbv zeta.
  rewrite (index_split_1 _ _ _ H), (split_cut _ _ _ _ H). reflexivity.
Qed.

Lemma parseCsvRow_no_comma line :
  contains "," line = false ->
  parseCsvRow line = {| currency := Str line; rate := NaN |}.
Proof.
  intros H. unfold parseCsvRow. rewrite (split_no_sep _ _ H). reflexivity.
Qed.

Lemma second_field_no_comma line :
  contains "," line = false -> second_field line = Undefined.
Proof. intros H. unfold second_field. rewrite (split_no_sep _ _ H). reflexivity. Qed.

Lemma span_digits_all ds rest :
  forallb_string is_digit ds = true ->
  span_digits (ds ++ rest) =
  ((ds ++ fst (span_digits rest))%string, snd (span_digits rest)).
Proof.
  induction ds as [| c ds IH]; simpl; intros H.
  - destruct (span_digits rest). reflexivity.
  - apply andb_true_iff in H as [Hc Hd]. rewrite Hc, (IH Hd). reflexivity.
Qed.

Lemma string_app_empty (s : string) : (s ++ "")%string = s.
Proof. induction s as [| c s IH]; simpl; [| rewrite IH]; reflexivity. Qed.

Lemma is_empty_app a b : is_empty a = false -> is_empty (a ++ b) = false.
Proof. destruct a; [discriminate | reflexivity]. Qed.

(** A decimal numeral, digits a point and digits, is read in full. *)
Lemma parseFloat_decimal ip fp :
  forallb_string is_digit ip = true -> is_empty ip = false ->
  forallb_string is_digit fp = true -> is_empty fp = false ->
  parseFloat (Str (ip ++ String "." fp)) =
  round_decimal false (digits_value (ip ++ fp)) (- Z.of_nat (String.length fp)).
Proof.
  intros Hip Nip Hfp Nfp.
  unfold parseFloat, ToString, parseFloat_string.
  destruct ip as [| c ip]; [discriminate |].
  simpl in Hip. apply andb_true_iff in Hip as [Hc Hip].
  assert (Ht : trim_start (String c ip ++ String "." fp) = (String c ip ++ String "." fp)%string).
  { simpl. rewrite (digit_not_white c Hc). reflexivity. }
  rewrite Ht.
  assert (Hs : signed (String c ip ++ String "." fp) = (false, (String c ip ++ String "." fp)%string)).
  { simpl. rewrite (digit_not_plus c Hc), (digit_not_minus c Hc). reflexivity. }
  rewrite Hs. unfold unsigned_literal.
  change (String c ip ++ String "." fp)%string with (String c (ip ++ String "." fp)) at 1.
  rewrite (prefix_Infinity_digit c _ Hc).
  rewrite span_digits_all by (simpl; rewrite Hc; exact Hip).
  change (span_digits (String "." fp)) with (EmptyString, String "." fp).
  simpl fst. simpl snd. rewrite string_app_empty.
  change (fraction (String "." fp)) with (Some (span_digits fp)).
  rewrite <- (string_app_empty fp) at 1.
  rewrite span_digits_all by exact Hfp.
  simpl fst. simpl snd. rewrite string_app_empty.
  simpl is_empty. simpl andb. reflexivity.
Qed.

(* ===================================================================== *)
(** * The price pattern *)
(* ===================================================================== *)

Lemma forallb_string_app p a b :
  forallb_string p (a ++ b) = forallb_string p a && forallb_string p b.
Proof.
  induction a as [| c a IH]; simpl; [reflexivity |].
  rewrite IH. apply andb_assoc.
Qed.

Lemma forallb_string_impl (p q : ascii -> bool) s :
  (forall c, p c = true -> q c = true) ->
  forallb_string p s = true -> forallb_string q s = true.
Proof.
  intros Hpq. induction s as [| c s IH]; simpl; [reflexivity |].
  intros H. apply andb_true_iff in H as [Hc Hs].
  rewrite (Hpq c Hc), (IH Hs). reflexivity.
Qed.

Lemma string_app_assoc (a b c : string) : ((a ++ b) ++ c = a ++ (b ++ c))%string.
Proof. induction a as [| x a IH]; simpl; [| rewrite IH]; reflexivity. Qed.

Lemma plus_class_prefix p s rest :
  In rest (plus_class p s) ->
  exists pre, s = (pre ++ rest)%string /\ forallb_string p pre = true.
Proof.
  revert rest. induction s as [| c s IH]; simpl; intros rest H; [contradiction |].
  destruct (p c) eqn:Hc; [| contradiction].
  apply in_app_or in H as [H | [<- | []]].
  - destruct (IH rest H) as (pre & -> & Hp).
    exists (String c pre). split; [reflexivity |]. simpl. rewrite Hc. exact Hp.
  - exists (String c EmptyString). split; [reflexivity |]. simpl. rewrite Hc. reflexivity.
Qed.

(** What a match consumes is a prefix made of code units the pattern
    accepts. *)
Lemma ends_prefix r : forall s rest,
  In rest (ends r s) ->
  exists pre, s = (pre ++ rest)%string /\ forallb_string (accepts r) pre = true.
Proof.
  induction r as [p | p | r1 IH1 r2 IH2 | r1 IH1]; simpl; intros s rest H.
  - destruct s as [| c t]; [contradiction |].
    destruct (p c) eqn:Hc; [| contradiction].
    destruct H as [<- | []].
    exists (String c EmptyString). split; [reflexivity |]. simpl. rewrite Hc. reflexivity.
  - apply plus_class_prefix, H.
  - apply in_flat_map in H as (mid & Hmid & Hrest).
    destruct (IH1 _ _ Hmid) as (pre1 & -> & Hp1).
    destruct (IH2 _ _ Hrest) as (pre2 & -> & Hp2).
    exists (pre1 ++ pre2)%string. split; [symmetry; apply string_app_assoc |].
    rewrite forallb_string_app.
    rewrite (forallb_string_impl _ _ pre1 (fun c Hc => proj2 (orb_true_iff _ _) (or_introl Hc)) Hp1).
    rewrite (forallb_string_impl _ _ pre2 (fun c Hc => proj2 (orb_true_iff _ _) (or_intror Hc)) Hp2).
    reflexivity.
  - apply in_app_or in H as [H | [<- | []]].
    + apply IH1, H.
    + exists EmptyString. split; reflexivity.
Qed.

Lemma string_length_app (a b : string) :
  String.length (a ++ b) = String.length a + String.length b.
Proof. induction a as [| c a IH]; simpl; [| rewrite IH]; reflexivity. Qed.

Lemma substring_prefix (a b : string) :
  substring 0 (String.length a) (a ++ b) = a.
Proof.
  induction a as [| c a IH]; simpl.
  - destruct b; reflexivity.
  - rewrite IH. reflexivity.
Qed.

Lemma exec_head r s rest l :
  ends r s = rest :: l ->
  exists pre, s = (pre ++ rest)%string /\ forallb_string (accepts r) pre = true
              /\ exec r s = Some pre.
Proof.
  intros E.
  destruct (ends_prefix r s rest) as (pre & Hs & Hp); [rewrite E; left; reflexivity |].
  exists pre. split; [exact Hs |]. split; [exact Hp |].
  assert (Hx : exec r s = Some (substring 0 (String.length s - String.length rest) s)).
  { destruct s; cbn [exec]; rewrite E; reflexivity. }
  rewrite Hx. f_equal.
  rewrite Hs, string_length_app, Nat.add_sub. apply substring_prefix.
Qed.

Lemma exec_accepts r s : forall m,
  exec r s = Some m -> forallb_string (accepts r) m = true.
Proof.
  induction s as [| c s IH]; intros m H.
  - destruct (ends r "") as [| rest l] eqn:E.
    + cbn [exec] in H. rewrite E in H. discriminate.
    + destruct (exec_head _ _ _ _ E) as (pre & _ & Hp & Hx). congruence.
  - destruct (ends r (String c s)) as [| rest l] eqn:E.
    + cbn [exec] in H. rewrite E in H. apply IH, H.
    + destruct (exec_head _ _ _ _ E) as (pre & _ & Hp & Hx). congruence.
Qed.

Lemma remove_all_absent c s :
  forallb_string (fun d => negb (Ascii.eqb d c)) s = true -> remove_all c s = s.
Proof.
  induction s as [| d s IH]; simpl; [reflexivity |].
  intros H. apply andb_true_iff in H as [Hd Hs].
  apply negb_true_iff in Hd. rewrite Hd, (IH Hs). reflexivity.
Qed.

(** A match of the price pattern holds no comma: the [replace] that
    follows the match never removes anything. *)
Lemma price_match_comma_free text m :
  exec price_pattern text = Some m -> remove_all "," m = m.
Proof.
  intros H. apply remove_all_absent.
  apply (forallb_string_impl (accepts price_pattern)); [| apply (exec_accepts _ _ _ H)].
  intros c Hc. simpl in Hc.
  apply orb_true_iff in Hc as [Hc | Hc];
    [| apply orb_true_iff in Hc as [Hc | Hc]].
  - rewrite (digit_not_comma c Hc). reflexivity.
  - rewrite (dot_not_comma c Hc). reflexivity.
  - rewrite (digit_not_comma c Hc). reflexivity.
Qed.

Lemma plus_class_head p c s : p c = true -> plus_class p (String c s) <> [].
Proof.
  intros H. simpl. rewrite H. destruct (plus_class p s); discriminate.
Qed.

Lemma ends_price_pattern c s :
  ends price_pattern (String c s) = [] <-> is_digit c = false.
Proof.
  unfold price_pattern.
  change (ends (Seq (PlusClass is_digit) ?x) ?t) with (flat_map (ends x) (plus_class is_digit t)).
  split.
  - intros H. destruct (is_digit c) eqn:Hc; [| reflexivity].
    pose proof (plus_class_head is_digit c s Hc) as Hn.
    destruct (plus_class is_digit (String c s)) as [| mid l]; [contradiction |].
    simpl in H. apply app_eq_nil in H as [H _].
    apply app_eq_nil in H as [_ H]. discriminate.
  - intros Hc. simpl. rewrite Hc. reflexivity.
Qed.

(** The price pattern finds no match exactly in the texts without a
    digit. *)
Lemma price_pattern_no_match text :
  exec price_pattern text = None <->
  forallb_string (fun c => negb (is_digit c)) text = true.
Proof.
  induction text as [| c s IH].
  - split; reflexivity.
  - cbn [exec forallb_string].
    destruct (ends price_pattern (String c s)) as [| rest l] eqn:E.
    + apply ends_price_pattern in E. rewrite E. simpl. exact IH.
    + split; [discriminate |].
      intros H. apply andb_true_iff in H as [Hc _].
      apply negb_true_iff in Hc. apply (proj2 (ends_price_pattern c s)) in Hc.
      rewrite Hc in E. discriminate.
Qed.

(* ===================================================================== *)
(** * The page: paths, search and counting *)
(* ===================================================================== *)

Section NodeInduction.
Variable P : node -> Prop.
Hypothesis P_text : forall d, P (Text d).
Hypothesis P_element :
  forall t a l kids, Forall P kids -> P (Element t a l kids).

Fixpoint node_induction (n : node) : P n :=
  match n with
  | Text d => P_text d
  | Element t a l kids =>
      P_element t a l kids
        ((fix all (ks : list node) : Forall P ks :=
            match ks with
            | [] => Forall_nil P
            | k :: r => Forall_cons k (node_induction k) (all r)
            end) kids)
  end.
End NodeInduction.

Lemma lookup_cons f i q :
  lookup f (i :: q) =
  match nth_error f i with
  | Some n => node_at n q
  | None => None
  end.
Proof. simpl. destruct (nth_error f i); [destruct q |]; reflexivity. Qed.

Lemma lookup_nil_forest p : lookup [] p = None.
Proof. destruct p as [| [| i] q]; reflexivity. Qed.

Lemma node_at_text d q x : node_at (Text d) q = Some x -> q = [] /\ x = Text d.
Proof.
  destruct q as [| i q]; simpl.
  - intros [= <-]. split; reflexivity.
  - destruct i; discriminate.
Qed.

Lemma nth_error_list_update {A} (g : A -> A) l : forall i,
  nth_error (list_update i g l) i = option_map g (nth_error l i).
Proof.
  induction l as [| x l IH]; intros [| i]; simpl; try reflexivity. apply IH.
Qed.

Lemma list_sum_update {A} (h : A -> nat) (g : A -> A) l : forall i x,
  nth_error l i = Some x ->
  list_sum (map h (list_update i g l)) + h x = list_sum (map h l) + h (g x).
Proof.
  induction l as [| y l IH]; intros [| i] x H; simpl in *; try discriminate.
  - injection H as ->. lia.
  - specialize (IH i x H). lia.
Qed.

Lemma list_sum_delete {A} (h : A -> nat) l : forall i x,
  nth_error l i = Some x ->
  list_sum (map h (list_delete i l)) + h x = list_sum (map h l).
Proof.
  induction l as [| y l IH]; intros [| i] x H; simpl in *; try discriminate.
  - injection H as ->. lia.
  - specialize (IH i x H). lia.
Qed.

Lemma count_id_element i t a l kids :
  count_id i (Element t a l kids) =
  (if matches_compound (ById i) t a then 1 else 0) + count_id_forest i kids.
Proof. reflexivity. Qed.

Lemma remove_at_deep f j k q :
  remove_at f (j :: k :: q) =
  list_update j (fun n => set_children n (remove_at (children_of n) (k :: q))) f.
Proof. reflexivity. Qed.

Lemma update_at_deep g f j k q :
  update_at g f (j :: k :: q) =
  list_update j (fun n => set_children n (update_at g (children_of n) (k :: q))) f.
Proof. reflexivity. Qed.

(** ** Counting across removal and update *)

Lemma count_remove_at i : forall p f x,
  lookup f p = Some x ->
  count_id_forest i (remove_at f p) + count_id i x = count_id_forest i f.
Proof.
  induction p as [| j q IH]; intros f x H; [discriminate |].
  rewrite lookup_cons in H.
  destruct (nth_error f j) as [n |] eqn:Hn; [| discriminate].
  destruct q as [| k q'].
  - simpl in H. injection H as ->. apply list_sum_delete, Hn.
  - rewrite remove_at_deep.
    pose proof (list_sum_update (count_id i)
      (fun n0 => set_children n0 (remove_at (children_of n0) (k :: q'))) f j n Hn) as Hu.
    destruct n as [d | t a l kids].
    + apply node_at_text in H as [H _]. discriminate.
    + simpl node_at in H. specialize (IH kids x H).
      cbn [set_children children_of] in Hu.
      rewrite !count_id_element in Hu. unfold count_id_forest in *. lia.
Qed.

Lemma count_update_at i g : forall p f x,
  lookup f p = Some x ->
  count_id_forest i (update_at g f p) + count_id i x =
  count_id_forest i f + count_id i (g x).
Proof.
  induction p as [| j q IH]; intros f x H; [discriminate |].
  rewrite lookup_cons in H.
  destruct (nth_error f j) as [n |] eqn:Hn; [| discriminate].
  destruct q as [| k q'].
  - simpl in H. injection H as ->. apply list_sum_update, Hn.
  - rewrite update_at_deep.
    pose proof (list_sum_update (count_id i)
      (fun n0 => set_children n0 (update_at g (children_of n0) (k :: q'))) f j n Hn) as Hu.
    destruct n as [d | t a l kids].
    + apply node_at_text in H as [H _]. discriminate.
    + simpl node_at in H. specialize (IH kids x H).
      cbn [set_children children_of] in Hu.
      rewrite !count_id_element in Hu. unfold count_id_forest in *. lia.
Qed.

Lemma lookup_update_at g : forall p f,
  lookup (update_at g f p) p = option_map g (lookup f p).
Proof.
  induction p as [| j q IH]; intros f; [reflexivity |].
  destruct q as [| k q'].
  - cbn [update_at]. rewrite !lookup_cons, nth_error_list_update.
    destruct (nth_error f j); reflexivity.
  - rewrite update_at_deep, !lookup_cons, nth_error_list_update.
    destruct (nth_error f j) as [n |]; [| reflexivity].
    cbn [option_map]. destruct n as [d | t a l kids].
    + cbn [set_children node_at children_of]. rewrite lookup_nil_forest. reflexivity.
    + cbn [set_children node_at children_of]. apply IH.
Qed.

(** ** Search *)

Lemma first_match_some {A} (g : A -> option path) l : forall i p,
  first_match g i l = Some p ->
  exists j x q, p = (i + j) :: q /\ nth_error l j = Some x /\ g x = Some q /\
    forall j' x', j' < j -> nth_error l j' = Some x' -> g x' = None.
Proof.
  induction l as [| y l IH]; intros i p H; simpl in H; [discriminate |].
  destruct (g y) as [q |] eqn:Hy.
  - injection H as <-. exists 0, y, q. rewrite Nat.add_0_r.
    repeat split; try assumption. intros j' x' Hj. lia.
  - destruct (IH _ _ H) as (j & x & q & -> & Hx & Hg & Hbefore).
    exists (S j), x, q. rewrite Nat.add_succ_r.
    repeat split; try assumption.
    intros [| j'] x' Hj Hx'; simpl in Hx'.
    + injection Hx' as <-. exact Hy.
    + apply (Hbefore j'); [lia | exact Hx'].
Qed.

Lemma first_match_none {A} (g : A -> option path) l : forall i,
  first_match g i l = None <-> Forall (fun x => g x = None) l.
Proof.
  induction l as [| y l IH]; intros i; simpl.
  - split; [constructor | reflexivity].
  - destruct (g y) eqn:Hy.
    + split; [discriminate |]. intros H. inversion H; congruence.
    + rewrite IH. split; [intros H; constructor; assumption |].
      intros H. inversion H; assumption.
Qed.

(** A search answers with the path of an element the selector matches. *)
Lemma find_node_sound s n : forall anc q,
  find_node s anc n = Some q ->
  exists t a l kids anc', node_at n q = Some (Element t a l kids) /\
                          matches s anc' t a = true.
Proof.
  induction n as [d | t a l kids IH] using node_induction; intros anc q H.
  - discriminate.
  - cbn [find_node] in H. destruct (matches s anc t a) eqn:Hm.
    + injection H as <-. exists t, a, l, kids, anc. split; [reflexivity | exact Hm].
    + apply first_match_some in H as (j & x & q' & -> & Hx & Hg & _).
      rewrite Forall_forall in IH.
      destruct (IH x (nth_error_In _ _ Hx) _ _ Hg) as (t' & a' & l' & k' & anc' & Hat & Hm').
      exists t', a', l', k', anc'. split; [| exact Hm'].
      cbn [node_at children_of Nat.add]. rewrite lookup_cons, Hx. exact Hat.
Qed.

Lemma querySelector_sound s f p :
  querySelector s f = Some p ->
  exists t a l kids anc, lookup f p = Some (Element t a l kids) /\
                         matches s anc t a = true.
Proof.
  unfold querySelector. intros H.
  apply first_match_some in H as (j & x & q & -> & Hx & Hg & _).
  destruct (find_node_sound _ _ _ _ Hg) as (t & a & l & k & anc & Hat & Hm).
  exists t, a, l, k, anc. split; [| exact Hm].
  rewrite lookup_cons. simpl. rewrite Hx. exact Hat.
Qed.

(** No element has the id exactly when the search for it finds nothing. *)
Lemma find_node_by_id_none i n : forall anc,
  find_node (Sel (ById i)) anc n = None <-> count_id i n = 0.
Proof.
  induction n as [d | t a l kids IH] using node_induction; intros anc.
  - split; reflexivity.
  - cbn [find_node matches]. rewrite count_id_element.
    destruct (matches_compound (ById i) t a).
    + split; [discriminate | lia].
    + rewrite first_match_none. simpl. unfold count_id_forest.
      induction IH as [| k ks Hk _ IHks]; simpl.
      * split; [reflexivity | constructor].
      * split.
        -- intros H. inversion H as [| ? ? H1 H2]; subst.
           apply Hk in H1. apply IHks in H2. lia.
        -- intros H. constructor; [apply (Hk ((t, a) :: anc)); lia | apply IHks; lia].
Qed.

Lemma getElementById_none i f :
  getElementById i f = None <-> count_id_forest i f = 0.
Proof.
  unfold getElementById, querySelector, count_id_forest.
  rewrite first_match_none.
  induction f as [| n f IH]; simpl.
  - split; [reflexivity | constructor].
  - split.
    + intros H. inversion H as [| ? ? H1 H2]; subst.
      apply find_node_by_id_none in H1. apply IH in H2. lia.
    + intros H. constructor; [apply find_node_by_id_none; lia | apply IH; lia].
Qed.

Lemma getElementById_some i f p :
  getElementById i f = Some p ->
  exists x, lookup f p = Some x /\ 1 <= count_id i x.
Proof.
  intros H. apply querySelector_sound in H as (t & a & l & k & anc & Hl & Hm).
  exists (Element t a l k). split; [exact Hl |].
  rewrite count_id_element. cbn [matches] in Hm. rewrite Hm. lia.
Qed.

(** ** Lists updated at an index *)

Lemma nth_error_list_update_other {A} (g : A -> A) l : forall i j,
  i <> j -> nth_error (list_update i g l) j = nth_error l j.
Proof.
  induction l as [| x l IH]; intros [| i] [| j] H; simpl; try reflexivity.
  - contradiction.
  - apply IH. intros ->. apply H. reflexivity.
Qed.

Lemma list_update_twice {A} (g1 g2 : A -> A) l : forall i,
  list_update i g2 (list_update i g1 l) = list_update i (fun x => g2 (g1 x)) l.
Proof.
  induction l as [| x l IH]; intros [| i]; simpl; try reflexivity.
  rewrite IH. reflexivity.
Qed.

Lemma list_update_same {A} (g : A -> A) l : forall i x,
  nth_error l i = Some x -> g x = x -> list_update i g l = l.
Proof.
  induction l as [| y l IH]; intros [| i] x H Hg; simpl in *; try discriminate.
  - injection H as ->. rewrite Hg. reflexivity.
  - rewrite (IH i x H Hg). reflexivity.
Qed.

Lemma list_sum_zero_nth {A} (h : A -> nat) l : forall i x,
  list_sum (map h l) = 0 -> nth_error l i = Some x -> h x = 0.
Proof.
  induction l as [| y l IH]; intros [| i] x Hs H; simpl in *; try discriminate.
  - injection H as ->. lia.
  - apply (IH i x); [lia | exact H].
Qed.

Lemma first_match_at {A} (g : A -> option path) l : forall j x q n,
  nth_error l j = Some x -> g x = Some q ->
  (forall j' x', j' < j -> nth_error l j' = Some x' -> g x' = None) ->
  first_match g n l = Some ((n + j) :: q).
Proof.
  induction l as [| y l IH]; intros [| j] x q n Hx Hg Hbefore; simpl in Hx;
    try discriminate.
  - injection Hx as ->. simpl. rewrite Hg, Nat.add_0_r. reflexivity.
  - simpl. rewrite (Hbefore 0 y (Nat.lt_0_succ j) eq_refl).
    rewrite (IH j x q (S n) Hx Hg).
    + rewrite Nat.add_succ_r. reflexivity.
    + intros j' x' Hj Hx'. apply (Hbefore (S j') x'); [lia | exact Hx'].
Qed.

(** ** The block a cycle inserted is the one the next cycle removes *)

Section InsertedBlock.
Variable i : string.
Variable B : node.
Hypothesis B_has_id : forall anc, find_node (Sel (ById i)) anc B = Some [].

Lemma find_inserted : forall d f anc t a l kids,
  count_id_forest i f = 0 ->
  lookup f d = Some (Element t a l kids) ->
  first_match (find_node (Sel (ById i)) anc) 0 (update_at (prepend_child B) f d)
  = Some (d ++ [0]).
Proof.
  induction d as [| j q IH]; intros f anc t a l kids Hc H; [discriminate |].
  rewrite lookup_cons in H.
  destruct (nth_error f j) as [x |] eqn:Hx; [| discriminate].
  pose proof (list_sum_zero_nth (count_id i) f j x Hc Hx) as Hx0.
  assert (Hbefore : forall g j' x', j' < j ->
            nth_error (list_update j g f) j' = Some x' ->
            find_node (Sel (ById i)) anc x' = None).
  { intros g j' x' Hj Hx'. rewrite nth_error_list_update_other in Hx' by lia.
    apply find_node_by_id_none. apply (list_sum_zero_nth (count_id i) f j' x' Hc Hx'). }
  destruct q as [| k q'].
  - simpl in H. injection H as ->.
    cbn [update_at]. apply (first_match_at _ _ j (prepend_child B (Element t a l kids))).
    + rewrite nth_error_list_update, Hx. reflexivity.
    + cbn [prepend_child find_node matches].
      rewrite count_id_element in Hx0.
      destruct (matches_compound (ById i) t a); [lia |].
      cbn [first_match]. rewrite B_has_id. reflexivity.
    + apply Hbefore.
  - destruct x as [dt | t0 a0 l0 kids0].
    + apply node_at_text in H as [H _]. discriminate.
    + cbn [node_at children_of] in H.
      rewrite update_at_deep.
      apply (first_match_at _ _ j
               (Element t0 a0 l0 (update_at (prepend_child B) kids0 (k :: q')))).
      * rewrite nth_error_list_update, Hx. reflexivity.
      * cbn [find_node matches]. rewrite count_id_element in Hx0.
        destruct (matches_compound (ById i) t0 a0); [lia |].
        apply (IH kids0 _ t a l kids); [simpl in Hx0; exact Hx0 | exact H].
      * apply Hbefore.
Qed.

Lemma remove_inserted : forall d f t a l kids,
  lookup f d = Some (Element t a l kids) ->
  remove_at (update_at (prepend_child B) f d) (d ++ [0]) = f.
Proof.
  induction d as [| j q IH]; intros f t a l kids H; [discriminate |].
  rewrite lookup_cons in H.
  destruct (nth_error f j) as [x |] eqn:Hx; [| discriminate].
  destruct q as [| k q'].
  - simpl in H. injection H as ->.
    cbn [update_at app]. rewrite remove_at_deep, list_update_twice.
    apply (list_update_same _ _ _ _ Hx). reflexivity.
  - destruct x as [dt | t0 a0 l0 kids0].
    + apply node_at_text in H as [H _]. discriminate.
    + cbn [node_at children_of] in H.
      rewrite update_at_deep.
      change ((j :: k :: q') ++ [0]) with (j :: k :: (q' ++ [0])).
      rewrite remove_at_deep, list_update_twice.
      apply (list_update_same _ _ _ _ Hx).
      cbn [set_children children_of].
      change (k :: q' ++ [0]) with ((k :: q') ++ [0]).
      rewrite (IH kids0 t a l kids H). reflexivity.
Qed.
End InsertedBlock.

(** ** Searches that the inserted block does not answer *)

Lemma first_some_update {A B} (h : A -> option B) (u : A -> A) l : forall j,
  (forall x, nth_error l j = Some x -> h (u x) = h x) ->
  first_some h (list_update j u l) = first_some h l.
Proof.
  induction l as [| y l IH]; intros [| j] H; simpl; try reflexivity.
  - rewrite (H y eq_refl). reflexivity.
  - rewrite (IH j); [reflexivity |]. intros x Hx. apply H. exact Hx.
Qed.

Lemma first_element_insert s B :
  (forall anc, first_element s anc B = None) ->
  forall d f anc,
    first_some (first_element s anc) (update_at (prepend_child B) f d) =
    first_some (first_element s anc) f.
Proof.
  intros HB. induction d as [| j q IH]; intros f anc; [reflexivity |].
  destruct q as [| k q'].
  - cbn [update_at]. apply first_some_update.
    intros [dt | t a l kids] _; [reflexivity |].
    cbn [prepend_child first_element first_some]. rewrite HB. reflexivity.
  - rewrite update_at_deep. apply first_some_update.
    intros [dt | t a l kids] _; [reflexivity |].
    cbn [set_children children_of first_element]. rewrite IH. reflexivity.
Qed.

Lemma first_match_first_some {A B} (g : A -> option path) (h : A -> option B) l :
  Forall (fun x => g x = None <-> h x = None) l ->
  forall n,
    match first_match g n l with
    | Some p => exists j x q, p = (n + j) :: q /\ nth_error l j = Some x /\
                              g x = Some q /\ first_some h l = h x
    | None => first_some h l = None
    end.
Proof.
  induction 1 as [| y l Hy _ IH]; intros n; [reflexivity |].
  simpl. destruct (g y) as [q |] eqn:Hg.
  - exists 0, y, q. rewrite Nat.add_0_r. repeat split; try assumption.
    simpl. destruct (h y); [reflexivity |].
    pose proof (proj2 Hy eq_refl) as Hn. discriminate Hn.
  - rewrite (proj1 Hy eq_refl). specialize (IH (S n)).
    destruct (first_match g (S n) l) as [p |]; [| exact IH].
    destruct IH as (j & x & q & -> & Hx & Hq & Hf).
    exists (S j), x, q. rewrite Nat.add_succ_r. repeat split; assumption.
Qed.

(** The path a search answers leads to the first element the selector
    matches. *)
Lemma find_node_first_element s n : forall anc,
  match find_node s anc n with
  | Some q => exists t a l kids, node_at n q = Some (Element t a l kids) /\
                                 first_element s anc n = Some (t, a)
  | None => first_element s anc n = None
  end.
Proof.
  induction n as [d | t a l kids IH] using node_induction; intros anc; [reflexivity |].
  cbn [find_node first_element]. destruct (matches s anc t a).
  - exists t, a, l, kids. split; reflexivity.
  - assert (HF : Forall (fun x => find_node s ((t, a) :: anc) x = None <->
                                  first_element s ((t, a) :: anc) x = None) kids).
    { apply (Forall_impl _ (P := fun x => forall anc0,
                match find_node s anc0 x with
                | Some q => exists t0 a0 l0 kids0,
                    node_at x q = Some (Element t0 a0 l0 kids0) /\
                    first_element s anc0 x = Some (t0, a0)
                | None => first_element s anc0 x = None
                end)); [| exact IH].
      intros x Hx. specialize (Hx ((t, a) :: anc)).
      destruct (find_node s ((t, a) :: anc) x).
      - destruct Hx as (t0 & a0 & l0 & k0 & _ & ->). split; discriminate.
      - rewrite Hx. split; reflexivity. }
    pose proof (first_match_first_some _ (first_element s ((t, a) :: anc)) kids HF 0) as Hm.
    destruct (first_match (find_node s ((t, a) :: anc)) 0 kids) as [p |]; [| exact Hm].
    destruct Hm as (j & x & q & -> & Hx & Hq & Hf).
    rewrite Forall_forall in IH.
    specialize (IH x (nth_error_In _ _ Hx) ((t, a) :: anc)). rewrite Hq in IH.
    destruct IH as (t0 & a0 & l0 & k0 & Hat & Hfe).
    exists t0, a0, l0, k0. split.
    + cbn [node_at children_of Nat.add]. rewrite lookup_cons, Hx. exact Hat.
    + rewrite Hf. exact Hfe.
Qed.

Lemma querySelector_first_element s f :
  match querySelector s f with
  | Some p => exists t a l kids, lookup f p = Some (Element t a l kids) /\
                                 first_some (first_element s []) f = Some (t, a)
  | None => first_some (first_element s []) f = None
  end.
Proof.
  unfold querySelector.
  assert (HF : Forall (fun x => find_node s [] x = None <-> first_element s [] x = None) f).
  { apply Forall_forall. intros x _.
    pose proof (find_node_first_element s x []) as Hx.
    destruct (find_node s [] x).
    - destruct Hx as (t0 & a0 & l0 & k0 & _ & ->). split; discriminate.
    - rewrite Hx. split; reflexivity. }
  pose proof (first_match_first_some _ (first_element s []) f HF 0) as Hm.
  destruct (first_match (find_node s []) 0 f) as [p |]; [| exact Hm].
  destruct Hm as (j & x & q & -> & Hx & Hq & Hf).
  pose proof (find_node_first_element s x []) as Hfe. rewrite Hq in Hfe.
  destruct Hfe as (t & a & l & k & Hat & Hfe).
  exists t, a, l, k. split.
  - rewrite lookup_cons. cbn [Nat.add]. rewrite Hx. exact Hat.
  - rewrite Hf. exact Hfe.
Qed.

(** The og:type marker that a page shows, through the first element the
    marker's selector matches. *)
Lemma og_type_first_element f :
  og_type f =
  option_map (fun e => getAttribute (snd e) "content")
    (first_some (first_element (Sel (ByTagAttrWord "meta" "property" "og:type")) []) f).
Proof.
  unfold og_type.
  pose proof (querySelector_first_element
                (Sel (ByTagAttrWord "meta" "property" "og:type")) f) as H.
  destruct (querySelector _ f) as [p |].
  - destruct H as (t & a & l & k & -> & ->). reflexivity.
  - rewrite H. reflexivity.
Qed.

(* ===================================================================== *)
(** * Running the script *)
(* ===================================================================== *)

Lemma with_document_same b : with_document (document b) b = b.
Proof. destruct b. reflexivity. Qed.

(** ** getExchangeRates *)

Lemma getExchangeRates_failed net b :
  fetch_failed net = true ->
  getExchangeRates net b =
  (Ret [], logged "Error fetching exchange rates:" (failure_of net)
             (requested GOOGLE_SHEETS_URL b)).
Proof.
  intros H. destruct net as [reason | r]; simpl in H.
  - reflexivity.
  - unfold getExchangeRates, bind, try_catch, fetch, modify, throw, ret.
    cbn. destruct (ok r); [discriminate H | reflexivity].
Qed.

Lemma getExchangeRates_ok r csv b :
  ok r = true -> body r = Some csv ->
  getExchangeRates (Resolved r) b =
  (Ret (parseCsvRows (split newline csv)), requested GOOGLE_SHEETS_URL b).
Proof.
  intros Hok Hbody.
  unfold getExchangeRates, bind, try_catch, fetch, modify, throw, ret, response_text.
  cbn. rewrite Hok. cbn. rewrite Hbody. reflexivity.
Qed.

Lemma getExchangeRates_body_fails r b :
  ok r = true -> body r = None ->
  getExchangeRates (Resolved r) b =
  (Throw (Rejected "body"), requested GOOGLE_SHEETS_URL b).
Proof.
  intros Hok Hbody.
  unfold getExchangeRates, bind, try_catch, fetch, modify, throw, ret, response_text.
  cbn. rewrite Hok. cbn. rewrite Hbody. reflexivity.
Qed.

(** [getExchangeRates] never touches the page, and it adds a log entry
    only when the fetch failed. *)
Lemma getExchangeRates_frame net b :
  document (snd (getExchangeRates net b)) = document b /\
  (fetch_failed net = false -> console (snd (getExchangeRates net b)) = console b).
Proof.
  destruct (fetch_failed net) eqn:Hf.
  - rewrite (getExchangeRates_failed _ _ Hf). split; [reflexivity | discriminate].
  - destruct net as [reason | r]; [discriminate |].
    simpl in Hf. apply negb_false_iff in Hf.
    destruct (body r) as [csv |] eqn:Hb.
    + rewrite (getExchangeRates_ok _ _ _ Hf Hb). split; reflexivity.
    + rewrite (getExchangeRates_body_fails _ _ Hf Hb). split; reflexivity.
Qed.

(** ** The formatting step *)

Lemma formatRate_state L price r b : snd (formatRate L price r b) = b.
Proof.
  unfold formatRate, bind, NumberFormat_currency.
  destruct (currency r) as [| c]; [reflexivity |].
  destruct (well_formed_currency_code c); reflexivity.
Qed.

Lemma mapM_formatRate_state L price rates b :
  snd (mapM (formatRate L price) rates b) = b.
Proof.
  induction rates as [| r rates IH]; [reflexivity |].
  cbn [mapM]. unfold bind at 1.
  pose proof (formatRate_state L price r b) as H1.
  destruct (formatRate L price r b) as [[y | e] b1]; simpl in H1; subst b1;
    [| reflexivity].
  unfold bind at 1.
  destruct (mapM (formatRate L price) rates b) as [[ys | e] b2]; simpl in IH; subst b2;
    reflexivity.
Qed.

(** ** displayCurrencies *)

Lemma displayCurrencies_no_marker L net b :
  og_type (document b) = None ->
  displayCurrencies L net b = (Throw TypeError, b).
Proof.
  unfold og_type, displayCurrencies, bind, document_querySelector,
    element_getAttribute, deref, gets, throw, ret, bind.
  destruct (querySelector _ (document b)) as [p |]; [| reflexivity].
  destruct (lookup (document b) p) as [[d | t a l k] |]; [reflexivity | | reflexivity].
  discriminate.
Qed.

Lemma displayCurrencies_not_product L net b content :
  og_type (document b) = Some content -> is_product content = false ->
  displayCurrencies L net b = (Ret tt, b).
Proof.
  unfold og_type, displayCurrencies, bind, document_querySelector,
    element_getAttribute, deref, gets, throw, ret, bind.
  destruct (querySelector _ (document b)) as [p |]; [| discriminate].
  destruct (lookup (document b) p) as [[d | t a l k] |]; [discriminate | | discriminate].
  intros [= <-] H. rewrite H. reflexivity.
Qed.

(** One cycle on a product page, step by step. *)
Lemma displayCurrencies_product L net b :
  is_product_page (document b) = true ->
  displayCurrencies L net b =
  match getExchangeRates net (with_document (remove_block (document b)) b) with
  | (Throw e, b2) => (Throw e, b2)
  | (Ret rates, b2) =>
      match price_text (document b2) with
      | None => (Throw TypeError, b2)
      | Some text =>
          match exec price_pattern text with
          | None => (Throw TypeError, b2)
          | Some m =>
              match mapM (formatRate L (parseFloat (Str (remove_all "," m)))) rates b2 with
              | (Throw e, b3) => (Throw e, b3)
              | (Ret formattedRates, b3) =>
                  match details (document b3) with
                  | None => (Throw TypeError, b3)
                  | Some d =>
                      (Ret tt,
                       with_document
                         (update_at (prepend_child (parentElement formattedRates))
                            (document b3) d) b3)
                  end
              end
          end
      end
  end.
Proof.
  unfold is_product_page, og_type.
  unfold displayCurrencies, bind, document_querySelector, document_getElementById,
    element_getAttribute, deref, gets, throw, ret, bind.
  destruct (querySelector _ (document b)) as [p |]; [| discriminate].
  destruct (lookup (document b) p) as [[d | t a l k] |]; [discriminate | | discriminate].
  intros H. rewrite H. unfold remove_block.
  assert (Hstep :
    (match getElementById block_id (document b) with
     | Some _ => element_remove (getElementById block_id (document b))
     | None => fun b0 : browser => (Ret tt, b0)
     end b) =
    (Ret tt, with_document
               match getElementById block_id (document b) with
               | Some p0 => remove_at (document b) p0
               | None => document b
               end b)).
  { destruct (getElementById block_id (document b)) as [p0 |].
    - reflexivity.
    - rewrite with_document_same. reflexivity. }
  rewrite Hstep. clear Hstep.
  destruct (getExchangeRates net _) as [[rates | e] b2]; [| reflexivity].
  unfold price_text.
  cbv beta iota delta [element_textContent bind deref gets throw ret].
  destruct (querySelector (Sel (ByClass "product-price")) (document b2)) as [pp |];
    [| reflexivity].
  destruct (lookup (document b2) pp) as [n |]; [| reflexivity].
  cbv beta iota delta [option_map priceText throw ret].
  destruct (exec price_pattern (textContent n)) as [m |]; [| reflexivity].
  destruct (mapM _ rates b2) as [[fs | e] b3]; [| reflexivity].
  unfold element_insertFirst, details, modify, throw.
  destruct (querySelector _ (document b3)) as [d |]; reflexivity.
Qed.

(* ===================================================================== *)
(** * The exchange-rate fetcher *)
(* ===================================================================== *)

(** C1. When the fetch fails at the network level or the response status
    is no success, [getExchangeRates] returns the empty array, does not
    throw, and leaves one more entry in the console log, the one of its
    [catch] block; the page is untouched. *)
Theorem getExchangeRates_fail_soft net b :
  fetch_failed net = true ->
  getExchangeRates net b =
    (Ret [], logged "Error fetching exchange rates:" (failure_of net)
               (requested GOOGLE_SHEETS_URL b)) /\
  console (snd (getExchangeRates net b)) =
    console b ++ [("Error fetching exchange rates:", failure_of net)] /\
  document (snd (getExchangeRates net b)) = document b.
Proof.
  intros H. rewrite (getExchangeRates_failed net b H).
  split; [reflexivity |]. split; reflexivity.
Qed.

Lemma getExchangeRates_fail_soft_witness :
  fetch_failed Sample.feed_404 = true /\
  getExchangeRates Sample.feed_404 (Sample.start Sample.product_page) =
    (Ret [],
     {| document := Sample.product_page;
        console := [("Error fetching exchange rates:", Error "HTTP error! status: 404")];
        requests := [GOOGLE_SHEETS_URL];
        unhandled := [] |}).
Proof.
  split; [reflexivity |].
  apply (getExchangeRates_fail_soft Sample.feed_404 (Sample.start Sample.product_page)).
  reflexivity.
Defined.

(** The same for a fetch that is rejected. *)
Example getExchangeRates_offline :
  getExchangeRates Sample.feed_offline (Sample.start Sample.product_page) =
    (Ret [],
     {| document := Sample.product_page;
        console := [("Error fetching exchange rates:", Rejected "Failed to fetch")];
        requests := [GOOGLE_SHEETS_URL];
        unhandled := [] |}).
Proof. reflexivity. Qed.

(* ===================================================================== *)
(** * The CSV row parser *)
(* ===================================================================== *)

Lemma nth_error_parseCsvRows rows i line :
  nth_error rows i = Some line ->
  nth_error (parseCsvRows rows) i = Some (parseCsvRow line).
Proof. intros H. unfold parseCsvRows. rewrite nth_error_map, H. reflexivity. Qed.

(** The rate of a row is NaN exactly when its second field, [undefined]
    included, has no numeric prefix. *)
Lemma parseCsvRow_rate_nan line :
  rate (parseCsvRow line) = NaN <->
  has_numeric_prefix (ToString (second_field line)) = false.
Proof. apply parseFloat_string_nan. Qed.

(** C3, as the code has it.  A line without a comma, or whose second
    field does not start (after white space and a sign) with a numeric
    literal, yields a record whose rate is NaN; [parseCsvRows] is total,
    one record per line, whatever the lines. *)
Theorem parseCsvRows_nan rows i line :
  nth_error rows i = Some line ->
  contains "," line = false \/
    has_numeric_prefix (ToString (second_field line)) = false ->
  (exists r, nth_error (parseCsvRows rows) i = Some r /\ rate r = NaN) /\
  List.length (parseCsvRows rows) = List.length rows.
Proof.
  intros Hi H. split; [| apply length_map].
  exists (parseCsvRow line). split; [apply nth_error_parseCsvRows, Hi |].
  apply parseCsvRow_rate_nan.
  destruct H as [H | H]; [| exact H].
  rewrite (second_field_no_comma _ H). reflexivity.
Qed.

Lemma parseCsvRows_nan_witness :
  (exists r, nth_error (parseCsvRows ["USD,1.5"; "EUR"; "GBP,#N/A"; ""]) 2 = Some r /\
             rate r = NaN) /\
  List.length (parseCsvRows ["USD,1.5"; "EUR"; "GBP,#N/A"; ""]) = 4.
Proof.
  apply (parseCsvRows_nan ["USD,1.5"; "EUR"; "GBP,#N/A"; ""] 2 "GBP,#N/A").
  - reflexivity.
  - right. reflexivity.
Defined.

(** The same on the other lines of that example: a line without a comma
    and an empty line. *)
Example parseCsvRows_nan_other_lines :
  map rate (parseCsvRows ["USD,1.5"; "EUR"; "GBP,#N/A"; ""]) =
    [S754_finite false 6755399441055744 (-52); NaN; NaN; NaN] /\
  map currency (parseCsvRows ["USD,1.5"; "EUR"; "GBP,#N/A"; ""]) =
    [Str "USD"; Str "EUR"; Str "GBP"; Str ""].
Proof. split; vm_compute; reflexivity. Qed.

(** C3, as the claim has it, fails: the second field ["12abc"] is not
    numeric, and the rate of the record is the Number 12. *)
Lemma parseCsvRows_prefix_is_read :
  numeric_field "12abc" = false /\
  parseCsvRows ["USD,12abc"] =
    [{| currency := Str "USD"; rate := S754_finite false 6755399441055744 (-49) |}] /\
  isNaN (S754_finite false 6755399441055744 (-49)) = false.
Proof. repeat split; vm_compute; reflexivity. Qed.

(** C5. A line [code,num], cut at its first comma, yields the record with
    [code] verbatim as currency and with [parseFloat(num)] as rate; when
    [num] is a decimal numeral, digits a point and digits, the rate is the
    Number of that numeral, the binary64 value nearest to it. *)
Theorem parseCsvRows_well_formed rows i line code num :
  nth_error rows i = Some line ->
  cut "," line = Some (code, num) ->
  nth_error (parseCsvRows rows) i =
    Some {| currency := Str code; rate := parseFloat (Str num) |} /\
  forall ip fp,
    num = (ip ++ String "." fp)%string ->
    forallb_string is_digit ip = true -> is_empty ip = false ->
    forallb_string is_digit fp = true -> is_empty fp = false ->
    parseFloat (Str num) =
      round_decimal false (digits_value (ip ++ fp)) (- Z.of_nat (String.length fp)).
Proof.
  intros Hi Hc. split.
  - rewrite (nth_error_parseCsvRows _ _ _ Hi), (parseCsvRow_first_comma _ _ _ Hc).
    reflexivity.
  - intros ip fp -> H1 H2 H3 H4. apply parseFloat_decimal; assumption.
Qed.

Lemma parseCsvRows_well_formed_witness :
  nth_error (parseCsvRows ["XXX,12.34"]) 0 =
    Some {| currency := Str "XXX"; rate := S754_finite false 6946802425218990 (-49) |}.
Proof.
  exact (proj1 (parseCsvRows_well_formed ["XXX,12.34"] 0 "XXX,12.34" "XXX" "12.34"
                  eq_refl eq_refl)).
Defined.

(** That Number is the binary64 value nearest to 12.34:
    53 significant bits, and less than half a unit in the last place from
    1234/100. *)
Lemma rate_12_34_nearest :
  (2 ^ 52 <= 6946802425218990 < 2 ^ 53)%Z /\
  (2 * Z.abs (6946802425218990 * 100 - 1234 * 2 ^ 49) < 100)%Z.
Proof.
  split; [split; [apply Z.leb_le | apply Z.ltb_lt] | apply Z.ltb_lt];
    vm_compute; reflexivity.
Qed.

(* ===================================================================== *)
(** * The price extractor *)
(* ===================================================================== *)

(** The price of the text ["From $45.99"] is the Number 45.99. *)
Lemma price_From_45_99 :
  priceText "From $45.99" = ret "45.99" /\
  parseFloat (Str "45.99") = S754_finite false 6472517089461535 (-47) /\
  (2 * Z.abs (6472517089461535 * 100 - 4599 * 2 ^ 47) < 100)%Z.
Proof. split; [| split; [| apply Z.ltb_lt]]; vm_compute; reflexivity. Qed.

(** C6 fails on the code.  For the text ["$1,234.56"] the match stops at
    the comma and is ["1"]; the [replace] that follows finds no comma to
    remove, and the price is the Number 1, not the Number 1234.56. *)
Theorem price_thousands_separator :
  exec price_pattern "$1,234.56" = Some "1" /\
  priceText "$1,234.56" = ret "1" /\
  parseFloat (Str "1") = S754_finite false 4503599627370496 (-52) /\
  parseFloat (Str "1234.56") = S754_finite false 5429652300748554 (-42).
Proof. repeat split; vm_compute; reflexivity. Qed.

(** On any text the [replace] changes nothing. *)
Lemma priceText_is_the_match text m :
  exec price_pattern text = Some m -> priceText text = ret m.
Proof.
  intros H. unfold priceText. rewrite H, (price_match_comma_free _ _ H). reflexivity.
Qed.

(* ===================================================================== *)
(** * The formatting step *)
(* ===================================================================== *)

Lemma mul_nan x : mul x NaN = NaN.
Proof. destruct x; reflexivity. Qed.

(** C7, as the code has it.  For a record of the parser whose rate is NaN
    and whose currency is a well-formed code, three ASCII letters, the
    formatting step does not throw and yields the currency sign followed
    by the text NaN. *)
Theorem formatRate_nan L price row c b :
  currency (parseCsvRow row) = Str c ->
  well_formed_currency_code c = true ->
  rate (parseCsvRow row) = NaN ->
  formatRate L price (parseCsvRow row) b =
    (Ret {| fcurrency := Str c;
            fvalue := (currency_sign L (map_string to_upper c) ++ "NaN")%string |}, b).
Proof.
  intros Hc Hw Hr. unfold formatRate, bind, NumberFormat_currency, ret.
  rewrite Hc, Hw, Hr, mul_nan. reflexivity.
Qed.

Lemma formatRate_nan_witness :
  formatRate Sample.locale (parseFloat (Str "45.99")) (parseCsvRow "GBP,#N/A")
    (Sample.start Sample.product_page) =
    (Ret {| fcurrency := Str "GBP"; fvalue := "GBP NaN" |},
     Sample.start Sample.product_page).
Proof.
  apply (formatRate_nan Sample.locale (parseFloat (Str "45.99")) "GBP,#N/A" "GBP"
           (Sample.start Sample.product_page)); reflexivity.
Defined.

(** C7, as the claim has it, fails: the empty line after a trailing
    newline yields a record whose rate is NaN and whose currency is the
    empty string, and the formatter for it throws a RangeError. *)
Lemma formatRate_trailing_line_throws :
  parseCsvRows (split newline Sample.csv_trailing_newline) =
    [{| currency := Str "USD"; rate := S754_finite false 4503599627370496 (-52) |};
     {| currency := Str ""; rate := NaN |}] /\
  formatRate Sample.locale (parseFloat (Str "45.99"))
    {| currency := Str ""; rate := NaN |} (Sample.start Sample.product_page) =
    (Throw RangeError, Sample.start Sample.product_page).
Proof. split; vm_compute; reflexivity. Qed.

(* ===================================================================== *)
(** * The renderer *)
(* ===================================================================== *)

(** ** Blocks on the page *)

Lemma blocks_remove_block f :
  blocks (remove_block f) <= blocks f /\
  (blocks f <= 1 -> blocks (remove_block f) = 0).
Proof.
  unfold blocks, remove_block.
  destruct (getElementById block_id f) as [p |] eqn:E.
  - destruct (getElementById_some _ _ _ E) as (x & Hx & Hc).
    pose proof (count_remove_at block_id p f x Hx). lia.
  - apply getElementById_none in E. lia.
Qed.

Lemma count_listItems fs :
  count_id_forest block_id (map listItemElement fs) = 0.
Proof. induction fs as [| f fs IH]; [reflexivity | exact IH]. Qed.

Lemma count_parentElement fs : count_id block_id (parentElement fs) = 1.
Proof.
  unfold parentElement, listElement, headingElement.
  rewrite !count_id_element. unfold count_id_forest at 1.
  cbn [map list_sum]. rewrite !count_id_element, count_listItems. reflexivity.
Qed.

Lemma count_prepend_child i child t a l kids :
  count_id i (prepend_child child (Element t a l kids)) =
  count_id i (Element t a l kids) + count_id i child.
Proof.
  cbn [prepend_child]. rewrite !count_id_element.
  unfold count_id_forest, list_sum. cbn [map fold_right]. lia.
Qed.

Lemma blocks_insert f d t a l kids fs :
  lookup f d = Some (Element t a l kids) ->
  blocks (update_at (prepend_child (parentElement fs)) f d) = blocks f + 1.
Proof.
  intros H. unfold blocks.
  pose proof (count_update_at block_id (prepend_child (parentElement fs)) d f _ H) as Hu.
  rewrite count_prepend_child, count_parentElement in Hu. lia.
Qed.

Lemma details_is_element f d :
  details f = Some d -> exists t a l kids, lookup f d = Some (Element t a l kids).
Proof.
  intros H. apply querySelector_sound in H as (t & a & l & k & _ & H & _).
  exists t, a, l, k. exact H.
Qed.

(** ** What a completed cycle leaves *)

(** A cycle that completes on a product page leaves the page it found,
    less the old block, with the new block as the first child of the
    details container. *)
Lemma displayCurrencies_completed L net b b' :
  is_product_page (document b) = true ->
  displayCurrencies L net b = (Ret tt, b') ->
  exists fs d t a l kids,
    details (remove_block (document b)) = Some d /\
    lookup (remove_block (document b)) d = Some (Element t a l kids) /\
    document b' =
      update_at (prepend_child (parentElement fs)) (remove_block (document b)) d.
Proof.
  intros Hp. rewrite (displayCurrencies_product L net b Hp).
  pose proof (getExchangeRates_frame net (with_document (remove_block (document b)) b))
    as [Hdoc _].
  destruct (getExchangeRates net _) as [[rates | e] b2]; [| discriminate].
  simpl in Hdoc.
  destruct (price_text (document b2)) as [text |]; [| discriminate].
  destruct (exec price_pattern text) as [m |]; [| discriminate].
  pose proof (mapM_formatRate_state L (parseFloat (Str (remove_all "," m))) rates b2) as Hst.
  destruct (mapM _ rates b2) as [[fs | e] b3]; [| discriminate].
  simpl in Hst. subst b3.
  destruct (details (document b2)) as [d |] eqn:Hd; [| discriminate].
  intros [= <-]. rewrite Hdoc in *.
  destruct (details_is_element _ _ Hd) as (t & a & l & k & Hl).
  exists fs, d, t, a, l, k. repeat split; assumption.
Qed.

Lemma displayCurrencies_completed_blocks L net b b' :
  blocks (document b) <= 1 ->
  displayCurrencies L net b = (Ret tt, b') ->
  is_product_page (document b) = true ->
  blocks (document b') = 1.
Proof.
  intros Hb Hrun Hp.
  destruct (displayCurrencies_completed L net b b' Hp Hrun)
    as (fs & d & t & a & l & k & _ & Hl & ->).
  rewrite (blocks_insert _ _ _ _ _ _ fs Hl).
  rewrite (proj2 (blocks_remove_block (document b)) Hb). reflexivity.
Qed.

(** X15. A cycle that runs to its end with no other cycle started in
    between, whatever it does, completed or aborted, leaves at most one
    block on a page that had at most one. *)
Lemma displayCurrencies_at_most_one L net b :
  blocks (document b) <= 1 ->
  blocks (document (snd (displayCurrencies L net b))) <= 1.
Proof.
  intros Hb.
  destruct (og_type (document b)) as [content |] eqn:Ho.
  - destruct (is_product content) eqn:Hc.
    + assert (Hp : is_product_page (document b) = true)
        by (unfold is_product_page; rewrite Ho; exact Hc).
      rewrite (displayCurrencies_product L net b Hp).
      pose proof (getExchangeRates_frame net (with_document (remove_block (document b)) b))
        as [Hdoc _].
      pose proof (proj2 (blocks_remove_block (document b)) Hb) as H0.
      destruct (getExchangeRates net _) as [[rates | e] b2]; simpl in Hdoc;
        [| simpl; rewrite Hdoc; cbn [document with_document]; lia].
      cbn [document with_document] in Hdoc.
      destruct (price_text (document b2)) as [text |];
        [| simpl; rewrite Hdoc; lia].
      destruct (exec price_pattern text) as [m |]; [| simpl; rewrite Hdoc; lia].
      pose proof (mapM_formatRate_state L (parseFloat (Str (remove_all "," m))) rates b2)
        as Hst.
      destruct (mapM _ rates b2) as [[fs | e] b3]; simpl in Hst; subst b3;
        [| simpl; rewrite Hdoc; lia].
      destruct (details (document b2)) as [d |] eqn:Hd; [| simpl; rewrite Hdoc; lia].
      destruct (details_is_element _ _ Hd) as (t & a & l & k & Hl).
      cbn [snd document with_document].
      rewrite (blocks_insert _ _ _ _ _ _ fs Hl), Hdoc. lia.
    + rewrite (displayCurrencies_not_product L net b content Ho Hc). exact Hb.
  - rewrite (displayCurrencies_no_marker L net b Ho). exact Hb.
Qed.

(** C2, as the code has it.  On a product page with at most one element
    of the block's id, two cycles, the second started only when the first
    has run to its end, and both completing, leave exactly one block
    after the first and exactly one after the second: a cycle removes the
    block it finds before it inserts its own. *)
Theorem displayCurrencies_twice L net1 net2 b b1 b2 :
  is_product_page (document b) = true ->
  blocks (document b) <= 1 ->
  displayCurrencies L net1 b = (Ret tt, b1) ->
  displayCurrencies L net2 b1 = (Ret tt, b2) ->
  blocks (document b1) = 1 /\ blocks (document b2) = 1.
Proof.
  intros Hp Hb Hrun1 Hrun2.
  pose proof (displayCurrencies_completed_blocks L net1 b b1 Hb Hrun1 Hp) as H1.
  split; [exact H1 |].
  destruct (og_type (document b1)) as [content |] eqn:Ho.
  - destruct (is_product content) eqn:Hc.
    + apply (displayCurrencies_completed_blocks L net2 b1 b2); [lia | exact Hrun2 |].
      unfold is_product_page. rewrite Ho. exact Hc.
    + rewrite (displayCurrencies_not_product L net2 b1 content Ho Hc) in Hrun2.
      injection Hrun2 as <-. exact H1.
  - rewrite (displayCurrencies_no_marker L net2 b1 Ho) in Hrun2. discriminate.
Qed.

Lemma displayCurrencies_twice_witness :
  let b := Sample.start Sample.product_page in
  let b1 := snd (displayCurrencies Sample.locale (Sample.feed Sample.csv_two_rows) b) in
  let b2 := snd (displayCurrencies Sample.locale Sample.feed_offline b1) in
  blocks (document b1) = 1 /\ blocks (document b2) = 1.
Proof.
  intros b b1 b2.
  apply (displayCurrencies_twice Sample.locale
           (Sample.feed Sample.csv_two_rows) Sample.feed_offline b b1 b2).
  - reflexivity.
  - vm_compute. lia.
  - vm_compute. reflexivity.
  - vm_compute. reflexivity.
Defined.

(** C2, as the claim has it, fails.  Nothing awaits [displayCurrencies]:
    invoked twice in succession, the second cycle starts while the
    request of the first is pending.  Each first phase finds no block to
    remove, each second phase inserts one: two blocks are on the page,
    both at the head of the details container. *)
Lemma displayCurrencies_twice_overlapping :
  blocks (document (Sample.start Sample.product_page)) = 0 /\
  fst (displayCurrencies_begin (Sample.start Sample.product_page)) = Ret true /\
  fst (displayCurrencies_begin
         (snd (displayCurrencies_begin (Sample.start Sample.product_page)))) = Ret true /\
  fst (displayCurrencies_resume Sample.locale (Sample.feed Sample.csv_two_rows)
         (snd (displayCurrencies_begin
                 (snd (displayCurrencies_begin (Sample.start Sample.product_page))))))
    = Ret tt /\
  fst (displayCurrencies_resume Sample.locale (Sample.feed Sample.csv_two_rows)
         (snd (displayCurrencies_resume Sample.locale (Sample.feed Sample.csv_two_rows)
                 (snd (displayCurrencies_begin
                         (snd (displayCurrencies_begin
                                 (Sample.start Sample.product_page)))))))) = Ret tt /\
  blocks
    (document
       (snd (displayCurrencies_resume Sample.locale (Sample.feed Sample.csv_two_rows)
               (snd (displayCurrencies_resume Sample.locale
                       (Sample.feed Sample.csv_two_rows)
                       (snd (displayCurrencies_begin
                               (snd (displayCurrencies_begin
                                       (Sample.start Sample.product_page)))))))))) = 2.
Proof. repeat split; vm_compute; reflexivity. Qed.

(** With the same feed, the second cycle rebuilds the page of the first:
    the list of the example page after one cycle and after two. *)
Example displayCurrencies_same_page_again :
  let b := Sample.start Sample.product_page in
  let b1 := snd (displayCurrencies Sample.locale (Sample.feed Sample.csv_two_rows) b) in
  let b2 := snd (displayCurrencies Sample.locale (Sample.feed Sample.csv_two_rows) b1) in
  document b2 = document b1 /\
  option_map textContent (lookup (document b1) [0; 1; 1; 0; 1]) =
    Some "USD: USD <amount>EUR: EUR <amount>".
Proof. split; vm_compute; reflexivity. Qed.

(** ** The second cycle rebuilds the page of the first *)

Lemma parentElement_has_id fs anc :
  find_node (Sel (ById block_id)) anc (parentElement fs) = Some [].
Proof. reflexivity. Qed.

Lemma listItems_no_marker s anc fs :
  (forall a, matches s a "li" [] = false) ->
  first_some (first_element s anc) (map listItemElement fs) = None.
Proof.
  intros H. induction fs as [| f fs IH]; [reflexivity |].
  cbn [map first_some listItemElement first_element]. rewrite H. exact IH.
Qed.

Lemma parentElement_no_marker fs anc :
  first_element (Sel (ByTagAttrWord "meta" "property" "og:type")) anc (parentElement fs)
  = None.
Proof.
  unfold parentElement, headingElement, listElement.
  cbn [first_element matches matches_compound String.eqb Ascii.eqb Bool.eqb andb
       first_some].
  rewrite listItems_no_marker by reflexivity. reflexivity.
Qed.

Lemma remove_block_inserted f d t a l kids fs :
  blocks f = 0 ->
  lookup f d = Some (Element t a l kids) ->
  remove_block (update_at (prepend_child (parentElement fs)) f d) = f.
Proof.
  intros Hb Hl. unfold remove_block, getElementById, querySelector.
  rewrite (find_inserted block_id (parentElement fs) (parentElement_has_id fs)
             d f [] t a l kids Hb Hl).
  apply (remove_inserted (parentElement fs) d f t a l kids Hl).
Qed.

Lemma og_type_inserted f d fs :
  og_type (update_at (prepend_child (parentElement fs)) f d) = og_type f.
Proof.
  rewrite !og_type_first_element.
  rewrite first_element_insert; [reflexivity |].
  intros anc. apply parentElement_no_marker.
Qed.

Lemma getExchangeRates_result net b b' :
  fst (getExchangeRates net b) = fst (getExchangeRates net b').
Proof.
  destruct (fetch_failed net) eqn:Hf.
  - rewrite !(getExchangeRates_failed _ _ Hf). reflexivity.
  - destruct net as [reason | r]; [discriminate |].
    simpl in Hf. apply negb_false_iff in Hf.
    destruct (body r) as [csv |] eqn:Hb.
    + rewrite !(getExchangeRates_ok _ _ _ Hf Hb). reflexivity.
    + rewrite !(getExchangeRates_body_fails _ _ Hf Hb). reflexivity.
Qed.

Lemma formatRate_result L price r b b' :
  fst (formatRate L price r b) = fst (formatRate L price r b').
Proof.
  unfold formatRate, bind, NumberFormat_currency.
  destruct (currency r) as [| c]; [reflexivity |].
  destruct (well_formed_currency_code c); reflexivity.
Qed.

Lemma mapM_formatRate_result L price rates b b' :
  fst (mapM (formatRate L price) rates b) = fst (mapM (formatRate L price) rates b').
Proof.
  induction rates as [| r rates IH]; [reflexivity |].
  cbn [mapM]. unfold bind at 1 3.
  pose proof (formatRate_result L price r b b') as Hr.
  pose proof (formatRate_state L price r b) as H1.
  pose proof (formatRate_state L price r b') as H2.
  destruct (formatRate L price r b) as [o1 b1].
  destruct (formatRate L price r b') as [o2 b2].
  simpl in Hr, H1, H2. subst o2 b1 b2.
  destruct o1 as [y | e]; [| reflexivity].
  unfold bind.
  destruct (mapM (formatRate L price) rates b) as [o1 b1].
  destruct (mapM (formatRate L price) rates b') as [o2 b2].
  simpl in IH. subst o2. destruct o1; reflexivity.
Qed.

(** X16. Idempotence.  On a product page without a block, when a cycle
    runs to its end, the next cycle with the same feed runs to its end
    too and leaves the very page the first one left. *)
Lemma displayCurrencies_idempotent L net b b1 :
  is_product_page (document b) = true ->
  blocks (document b) = 0 ->
  displayCurrencies L net b = (Ret tt, b1) ->
  exists b2, displayCurrencies L net b1 = (Ret tt, b2) /\
             document b2 = document b1 /\ blocks (document b2) = 1.
Proof.
  intros Hp Hb Hrun.
  assert (H0 : remove_block (document b) = document b).
  { unfold remove_block. apply getElementById_none in Hb. rewrite Hb. reflexivity. }
  rewrite (displayCurrencies_product L net b Hp), H0, with_document_same in Hrun.
  pose proof (getExchangeRates_frame net b) as [Hdoc _].
  destruct (getExchangeRates net b) as [[rates | e] c1] eqn:Hrates; [| discriminate].
  cbn [snd] in Hdoc.
  destruct (price_text (document c1)) as [text |] eqn:Htext; [| discriminate].
  destruct (exec price_pattern text) as [m |] eqn:Hm; [| discriminate].
  pose proof (mapM_formatRate_state L (parseFloat (Str (remove_all "," m))) rates c1) as Hst.
  destruct (mapM _ rates c1) as [[fs | e] c2] eqn:Hfs; [| discriminate].
  cbn [snd] in Hst. subst c2.
  destruct (details (document c1)) as [d |] eqn:Hd; [| discriminate].
  injection Hrun as <-. cbn [document with_document].
  rewrite Hdoc in *.
  destruct (details_is_element _ _ Hd) as (t & a & l & kids & Hl).
  set (doc1 := update_at (prepend_child (parentElement fs)) (document b) d).
  assert (Hp1 : is_product_page doc1 = true).
  { unfold is_product_page, doc1. rewrite og_type_inserted. exact Hp. }
  pose proof (displayCurrencies_product L net (with_document doc1 c1) Hp1) as Heq.
  cbn [document with_document] in Heq.
  assert (Hrem : remove_block doc1 = document b)
    by (apply (remove_block_inserted _ _ _ _ _ _ fs Hb Hl)).
  rewrite Hrem in Heq.
  set (c0 := with_document (document b) (with_document doc1 c1)) in Heq.
  pose proof (getExchangeRates_result net c0 b) as Hres.
  pose proof (getExchangeRates_frame net c0) as [Hdoc0 _].
  rewrite Hrates in Hres.
  destruct (getExchangeRates net c0) as [o3 c3]. cbn [fst snd] in Hres, Hdoc0. subst o3.
  cbn [document with_document c0] in Hdoc0.
  rewrite Hdoc0, Htext, Hm in Heq.
  pose proof (mapM_formatRate_result L (parseFloat (Str (remove_all "," m))) rates c3 c1)
    as Hres2.
  pose proof (mapM_formatRate_state L (parseFloat (Str (remove_all "," m))) rates c3)
    as Hst2.
  rewrite Hfs in Hres2.
  destruct (mapM _ rates c3) as [o4 c4]. cbn [fst snd] in Hres2, Hst2. subst o4 c4.
  rewrite Hdoc0, Hd in Heq.
  eexists. split; [exact Heq |].
  cbn [document with_document]. split; [reflexivity |].
  fold doc1. unfold doc1. rewrite (blocks_insert _ _ _ _ _ _ fs Hl). lia.
Qed.

(** C4. When the og:type marker of the page has a content other than
    ["product"], or none, a cycle returns at once: the browser is as it
    was, so no request was made and the page is unchanged. *)
Theorem displayCurrencies_skips_other_pages L net b content :
  og_type (document b) = Some content ->
  content <> Some "product" ->
  displayCurrencies L net b = (Ret tt, b) /\
  requests (snd (displayCurrencies L net b)) = requests b /\
  document (snd (displayCurrencies L net b)) = document b.
Proof.
  intros Ho Hc.
  assert (Hp : is_product content = false).
  { destruct content as [c |]; [| reflexivity]. simpl.
    apply String.eqb_neq. intros ->. apply Hc. reflexivity. }
  rewrite (displayCurrencies_not_product L net b content Ho Hp).
  split; [reflexivity |]. split; reflexivity.
Qed.

Lemma displayCurrencies_skips_other_pages_witness :
  displayCurrencies Sample.locale (Sample.feed Sample.csv_two_rows)
    (Sample.start Sample.blog_page) = (Ret tt, Sample.start Sample.blog_page).
Proof.
  apply (displayCurrencies_skips_other_pages Sample.locale
           (Sample.feed Sample.csv_two_rows) (Sample.start Sample.blog_page)
           (Some "article")).
  - reflexivity.
  - discriminate.
Defined.

(** Without the marker the cycle fails before any request, too. *)
Lemma displayCurrencies_no_marker_no_request L net b :
  og_type (document b) = None ->
  requests (snd (displayCurrencies L net b)) = requests b.
Proof. intros H. rewrite (displayCurrencies_no_marker L net b H). reflexivity. Qed.

(** C8. On a product page whose price text the pattern does not match,
    the cycle, once the rates have come back, throws a TypeError that
    nothing catches.  The page is then the page it found less the old
    block: no block was inserted.  The console holds what
    [getExchangeRates] left, nothing about the abort: it is as before the
    cycle when the fetch succeeded, and has the one entry of the failed
    fetch otherwise. *)
Theorem displayCurrencies_price_missing L net b rates b2 text :
  is_product_page (document b) = true ->
  getExchangeRates net (with_document (remove_block (document b)) b) = (Ret rates, b2) ->
  price_text (remove_block (document b)) = Some text ->
  exec price_pattern text = None ->
  displayCurrencies L net b = (Throw TypeError, b2) /\
  document b2 = remove_block (document b) /\
  blocks (document b2) <= blocks (document b) /\
  console b2 =
    console b ++
    (if fetch_failed net
     then [("Error fetching exchange rates:", failure_of net)] else []).
Proof.
  intros Hp Hr Ht Hm.
  pose proof (getExchangeRates_frame net (with_document (remove_block (document b)) b))
    as [Hdoc Hcon].
  rewrite Hr in Hdoc, Hcon. cbn [snd document console with_document] in Hdoc, Hcon.
  split.
  - rewrite (displayCurrencies_product L net b Hp), Hr, Hdoc, Ht, Hm. reflexivity.
  - split; [exact Hdoc |]. split.
    + rewrite Hdoc. apply blocks_remove_block.
    + destruct (fetch_failed net) eqn:Hf.
      * rewrite (getExchangeRates_failed _ _ Hf) in Hr. injection Hr as _ <-.
        reflexivity.
      * rewrite (Hcon eq_refl). symmetry. apply app_nil_r.
Qed.

Lemma displayCurrencies_price_missing_witness :
  displayCurrencies Sample.locale (Sample.feed Sample.csv_two_rows)
    (Sample.start Sample.product_page_no_price) =
    (Throw TypeError,
     {| document := Sample.product_page_no_price;
        console := [];
        requests := [GOOGLE_SHEETS_URL];
        unhandled := [] |}).
Proof.
  apply (displayCurrencies_price_missing Sample.locale
           (Sample.feed Sample.csv_two_rows)
           (Sample.start Sample.product_page_no_price)
           (parseCsvRows (split newline Sample.csv_two_rows)) _ "Sold out");
    reflexivity.
Defined.

(** C10. On a product page, when [getExchangeRates] returns the empty
    array, the price text matches and the page has a details container,
    the cycle completes and the first child of the details container is
    the block: the heading with its fixed text, then an empty list. *)
Theorem displayCurrencies_empty_rates L net b b2 text m d :
  is_product_page (document b) = true ->
  getExchangeRates net (with_document (remove_block (document b)) b) = (Ret [], b2) ->
  price_text (remove_block (document b)) = Some text ->
  exec price_pattern text = Some m ->
  details (remove_block (document b)) = Some d ->
  exists b' t a l kids,
    displayCurrencies L net b = (Ret tt, b') /\
    lookup (document b') d =
      Some (Element t a l
              (Element "div" [("id", "multi-currency-display")] []
                 [Element "p" [] [] [Text "Approximate price in other currencies"];
                  Element "ul" [] [] []] :: kids)) /\
    lookup (remove_block (document b)) d = Some (Element t a l kids) /\
    blocks (document b') = blocks (remove_block (document b)) + 1.
Proof.
  intros Hp Hr Ht Hm Hd.
  pose proof (getExchangeRates_frame net (with_document (remove_block (document b)) b))
    as [Hdoc _].
  rewrite Hr in Hdoc. cbn [snd document with_document] in Hdoc.
  destruct (details_is_element _ _ Hd) as (t & a & l & kids & Hl).
  exists (with_document
            (update_at (prepend_child (parentElement [])) (document b2) d) b2),
    t, a, l, kids.
  split; [| split; [| split]].
  - rewrite (displayCurrencies_product L net b Hp), Hr, Hdoc, Ht, Hm.
    cbn [mapM]. unfold ret. rewrite Hdoc, Hd. reflexivity.
  - cbn [document with_document]. rewrite lookup_update_at, Hdoc, Hl. reflexivity.
  - exact Hl.
  - cbn [document with_document]. rewrite Hdoc. apply (blocks_insert _ _ _ _ _ _ [] Hl).
Qed.

Lemma displayCurrencies_empty_rates_witness :
  exists b' t a l kids,
    displayCurrencies Sample.locale Sample.feed_404 (Sample.start Sample.product_page)
      = (Ret tt, b') /\
    lookup (document b') [0; 1; 1] =
      Some (Element t a l
              (Element "div" [("id", "multi-currency-display")] []
                 [Element "p" [] [] [Text "Approximate price in other currencies"];
                  Element "ul" [] [] []] :: kids)) /\
    lookup (remove_block (document (Sample.start Sample.product_page))) [0; 1; 1] =
      Some (Element t a l kids) /\
    blocks (document b') =
      blocks (remove_block (document (Sample.start Sample.product_page))) + 1.
Proof.
  apply (displayCurrencies_empty_rates Sample.locale Sample.feed_404
           (Sample.start Sample.product_page)
           (snd (getExchangeRates Sample.feed_404 (Sample.start Sample.product_page)))
           "From $45.99" "45.99" [0; 1; 1]);
    reflexivity.
Defined.

(* ===================================================================== *)
(** * The page lifecycle controller *)
(* ===================================================================== *)

Lemma call_async_returns (c : M unit) b : fst (call_async c b) = Ret tt.
Proof. unfold call_async. destruct (c b) as [[[] | e] b']; reflexivity. Qed.

(** With a variant control on the page, initialisation starts one cycle
    and registers the renderer for the control's change event. *)
Lemma initCurrencyConversion_attaches L net b p :
  variant_select (document (snd (call_async (displayCurrencies L net) b))) = Some p ->
  initCurrencyConversion L net b =
    (Ret tt,
     with_document
       (update_at (add_listener ("change", "displayCurrencies"))
          (document (snd (call_async (displayCurrencies L net) b))) p)
       (snd (call_async (displayCurrencies L net) b))).
Proof.
  unfold variant_select. intros H.
  unfold initCurrencyConversion, bind.
  pose proof (call_async_returns (displayCurrencies L net) b) as Hr.
  destruct (call_async (displayCurrencies L net) b) as [o b']. simpl in Hr, H. subst o.
  unfold document_querySelector, gets. rewrite H. reflexivity.
Qed.

(** C9 fails on the code.  Without a variant control on the page,
    initialisation starts one cycle and then throws a TypeError: the
    listener is registered on the [null] that the query answered. *)
Theorem initCurrencyConversion_without_variant_control L net b :
  variant_select (document (snd (call_async (displayCurrencies L net) b))) = None ->
  initCurrencyConversion L net b =
    (Throw TypeError, snd (call_async (displayCurrencies L net) b)).
Proof.
  unfold variant_select. intros H.
  unfold initCurrencyConversion, bind.
  pose proof (call_async_returns (displayCurrencies L net) b) as Hr.
  destruct (call_async (displayCurrencies L net) b) as [o b']. simpl in Hr, H. subst o.
  unfold document_querySelector, gets. rewrite H. reflexivity.
Qed.

Lemma initCurrencyConversion_without_variant_control_witness :
  fst (initCurrencyConversion Sample.locale (Sample.feed Sample.csv_two_rows)
         (Sample.start Sample.product_page_no_variants)) = Throw TypeError /\
  requests (snd (initCurrencyConversion Sample.locale
                   (Sample.feed Sample.csv_two_rows)
                   (Sample.start Sample.product_page_no_variants)))
    = [GOOGLE_SHEETS_URL].
Proof.
  rewrite (initCurrencyConversion_without_variant_control Sample.locale
             (Sample.feed Sample.csv_two_rows)
             (Sample.start Sample.product_page_no_variants) eq_refl).
  split; reflexivity.
Defined.

(** With the control present the listener is registered and nothing is
    thrown. *)
Example initCurrencyConversion_with_variant_control :
  fst (initCurrencyConversion Sample.locale (Sample.feed Sample.csv_two_rows)
         (Sample.start Sample.product_page)) = Ret tt /\
  lookup (document (snd (initCurrencyConversion Sample.locale
                           (Sample.feed Sample.csv_two_rows)
                           (Sample.start Sample.product_page)))) [0; 1; 2; 0] =
    Some (Element "select" [] [("change", "displayCurrencies")] []).
Proof. split; vm_compute; reflexivity. Qed.

(* ===================================================================== *)
(** * More on the parser *)
(* ===================================================================== *)

Lemma cut_app sep s a b t :
  cut sep s = Some (a, b) -> cut sep (s ++ t) = Some (a, (b ++ t)%string).
Proof.
  revert a b. induction s as [| c r IH]; simpl; intros a b H; [discriminate |].
  destruct (Ascii.eqb c sep).
  - injection H as <- <-. reflexivity.
  - destruct (cut sep r) as [[a' b'] |]; [| discriminate].
    injection H as <- <-. rewrite (IH a' b' eq_refl). reflexivity.
Qed.

Lemma contains_cut sep s :
  contains sep s = true -> exists a b, cut sep s = Some (a, b).
Proof.
  intros H. destruct (cut sep s) as [[a b] |] eqn:E.
  - exists a, b. reflexivity.
  - rewrite (cut_none _ _ E) in H. discriminate.
Qed.

(** ** What ends a numeric literal *)

Section StopChar.
Variable c : ascii.
Variable r : string.
Hypothesis not_digit : is_digit c = false.
Hypothesis not_dot : is_dot c = false.
Hypothesis not_exponent : Ascii.eqb c "e" || Ascii.eqb c "E" = false.
Hypothesis not_sign : Ascii.eqb c "+" || Ascii.eqb c "-" = false.
Hypothesis not_in_Infinity : contains c "Infinity" = false.

Let tail (t : string) : string := (t ++ String c r)%string.

Lemma span_digits_stop t :
  span_digits (tail t) = (fst (span_digits t), tail (snd (span_digits t))).
Proof.
  induction t as [| d t IH].
  - unfold tail. simpl. rewrite not_digit. reflexivity.
  - unfold tail in *. simpl. destruct (is_digit d); [| reflexivity].
    rewrite IH. destruct (span_digits t). reflexivity.
Qed.

Lemma signed_stop t : signed (tail t) = (fst (signed t), tail (snd (signed t))).
Proof.
  apply orb_false_iff in not_sign as [Hp Hm].
  destruct t as [| d t].
  - unfold tail. simpl. rewrite Hp, Hm. reflexivity.
  - unfold tail. simpl.
    destruct (Ascii.eqb d "+"); [reflexivity |].
    destruct (Ascii.eqb d "-"); reflexivity.
Qed.

Lemma fraction_stop t :
  fraction (tail t) =
  match fraction t with
  | Some (fp, r3) => Some (fp, tail r3)
  | None => None
  end.
Proof.
  destruct t as [| d t].
  - unfold tail. simpl. rewrite not_dot. reflexivity.
  - unfold tail. simpl. destruct (is_dot d); [| reflexivity].
    fold (tail t). rewrite span_digits_stop. destruct (span_digits t). reflexivity.
Qed.

Lemma exponent_part_stop t : exponent_part (tail t) = exponent_part t.
Proof.
  destruct t as [| d t].
  - unfold tail. simpl. rewrite not_exponent. reflexivity.
  - unfold tail. simpl. destruct (Ascii.eqb d "e" || Ascii.eqb d "E"); [| reflexivity].
    fold (tail t). rewrite signed_stop. destruct (signed t) as [neg t'].
    simpl fst. simpl snd. rewrite span_digits_stop. reflexivity.
Qed.

Lemma prefix_stop p t :
  contains c p = false -> prefix p (tail t) = prefix p t.
Proof.
  revert t. induction p as [| a p IH]; intros t H;
    [destruct t; reflexivity |].
  simpl in H. apply orb_false_iff in H as [Ha Hp].
  destruct t as [| d t].
  - unfold tail. simpl. destruct (ascii_dec a c) as [E | E]; [| reflexivity].
    subst a. rewrite Ascii.eqb_refl in Ha. discriminate.
  - unfold tail. simpl. destruct (ascii_dec a d); [| reflexivity].
    apply IH, Hp.
Qed.

Lemma unsigned_literal_stop neg t :
  unsigned_literal neg (tail t) = unsigned_literal neg t.
Proof.
  unfold unsigned_literal.
  rewrite prefix_stop by exact not_in_Infinity.
  destruct (prefix "Infinity" t); [reflexivity |].
  rewrite span_digits_stop. destruct (span_digits t) as [ip r1].
  simpl fst. simpl snd. rewrite fraction_stop.
  destruct (fraction r1) as [[fp r3] |]; rewrite exponent_part_stop; reflexivity.
Qed.
End StopChar.

Lemma trim_start_app_nonempty a t :
  trim_start a <> EmptyString -> trim_start (a ++ t) = (trim_start a ++ t)%string.
Proof.
  induction a as [| d a IH]; simpl; intros H; [contradiction |].
  destruct (is_white_space d); [apply IH, H | reflexivity].
Qed.

Lemma trim_start_blank a :
  trim_start a = EmptyString ->
  trim_start (a ++ String carriage_return "") = EmptyString.
Proof.
  induction a as [| d a IH]; simpl; intros H; [reflexivity |].
  destruct (is_white_space d); [apply IH, H | discriminate].
Qed.

(** A carriage return at the end of a text changes nothing for
    [parseFloat]. *)
Lemma parseFloat_string_carriage_return a :
  parseFloat_string (a ++ String carriage_return "") = parseFloat_string a.
Proof.
  unfold parseFloat_string.
  destruct (trim_start a) as [| d t] eqn:E.
  - rewrite (trim_start_blank a E). reflexivity.
  - rewrite trim_start_app_nonempty by (rewrite E; discriminate).
    rewrite E.
    rewrite (signed_stop carriage_return "" eq_refl).
    destruct (signed (String d t)) as [neg t'].
    apply (unsigned_literal_stop carriage_return ""); reflexivity.
Qed.

(** X1. A row that has a comma yields the same record with and without a
    carriage return at its end: the line ends of a CR LF feed are
    harmless. *)
Theorem parseCsvRow_carriage_return line :
  contains "," line = true ->
  parseCsvRow (line ++ String carriage_return "") = parseCsvRow line.
Proof.
  intros H. destruct (contains_cut _ _ H) as (a & b & Hc).
  rewrite (parseCsvRow_first_comma _ _ _ Hc).
  rewrite (parseCsvRow_first_comma _ _ _ (cut_app _ _ _ _ (String carriage_return "") Hc)).
  unfold parseFloat, ToString. rewrite parseFloat_string_carriage_return. reflexivity.
Qed.

Lemma parseCsvRow_carriage_return_witness :
  parseCsvRows (split newline csv_crlf) =
    [{| currency := Str "USD"; rate := S754_finite false 4503599627370496 (-52) |};
     {| currency := Str "EUR"; rate := S754_finite false 8286623314361713 (-53) |}] /\
  parseCsvRow ("USD,1.0" ++ String carriage_return "") = parseCsvRow "USD,1.0".
Proof.
  split; [vm_compute; reflexivity |].
  apply (parseCsvRow_carriage_return "USD,1.0"). reflexivity.
Defined.

(** X2. Columns after the second are ignored: a row that has a comma
    yields the same record when a comma and any text are put after it. *)
Theorem parseCsvRow_extra_columns line extra :
  contains "," line = true ->
  parseCsvRow (line ++ String "," extra) = parseCsvRow line.
Proof.
  intros H. destruct (contains_cut _ _ H) as (a & b & Hc).
  rewrite (parseCsvRow_first_comma _ _ _ Hc).
  rewrite (parseCsvRow_first_comma _ _ _ (cut_app _ _ _ _ (String "," extra) Hc)).
  unfold parseFloat, ToString. rewrite parseFloat_string_comma. reflexivity.
Qed.

Lemma parseCsvRow_extra_columns_witness :
  parseCsvRow "GBP,0.79,British pound,2024" = parseCsvRow "GBP,0.79".
Proof.
  apply (parseCsvRow_extra_columns "GBP,0.79" "British pound,2024"). reflexivity.
Defined.

(* ===================================================================== *)
(** * More on the price *)
(* ===================================================================== *)

Lemma span_digits_split s :
  s = (fst (span_digits s) ++ snd (span_digits s))%string.
Proof.
  induction s as [| c s IH]; [reflexivity |].
  simpl. destruct (is_digit c); [| reflexivity].
  destruct (span_digits s) as [ds rest]. simpl in *. rewrite <- IH. reflexivity.
Qed.

Lemma plus_class_no_digit s :
  is_empty (fst (span_digits s)) = true -> plus_class is_digit s = [].
Proof.
  rewrite span_digits_empty. destruct s as [| c s]; [reflexivity |].
  intros H. apply negb_true_iff in H. simpl. rewrite H. reflexivity.
Qed.

(** The first way [\d+] matches is the longest run of digits. *)
Lemma plus_class_longest s :
  is_empty (fst (span_digits s)) = false ->
  exists l, plus_class is_digit s = snd (span_digits s) :: l.
Proof.
  induction s as [| c s IH]; [discriminate |].
  simpl. destruct (is_digit c); [| discriminate]. intros _.
  destruct (is_empty (fst (span_digits s))) eqn:E.
  - rewrite (plus_class_no_digit s E), (span_digits_no_digit s E).
    exists []. reflexivity.
  - destruct (IH eq_refl) as [l Hl]. rewrite Hl.
    destruct (span_digits s) as [ds rest]. exists (l ++ [s]). reflexivity.
Qed.

Lemma fraction_text_split rest :
  exists rest0 l,
    ends (Opt (Seq (Class is_dot) (PlusClass is_digit))) rest = rest0 :: l /\
    rest = (fraction_text rest ++ rest0)%string.
Proof.
  destruct rest as [| c r].
  - exists EmptyString, []. split; reflexivity.
  - cbn [ends fraction_text]. destruct (is_dot c); cbn [andb flat_map].
    + destruct (is_empty (fst (span_digits r))) eqn:E; cbn [negb].
      * rewrite (plus_class_no_digit r E). exists (String c r), []. split; reflexivity.
      * destruct (plus_class_longest r E) as [l Hl]. rewrite Hl.
        exists (snd (span_digits r)), ((l ++ []) ++ [String c r]).
        split; [reflexivity |].
        cbn [append]. rewrite <- span_digits_split. reflexivity.
    + exists (String c r), []. split; reflexivity.
Qed.

Lemma string_app_cancel_r (a b t : string) :
  (a ++ t = b ++ t)%string -> a = b.
Proof.
  revert b. induction a as [| x a IH]; intros [| y b] H.
  - reflexivity.
  - apply (f_equal String.length) in H.
    rewrite !string_length_app in H. simpl in H. lia.
  - apply (f_equal String.length) in H.
    rewrite !string_length_app in H. simpl in H. lia.
  - simpl in H. injection H as -> H. rewrite (IH b H). reflexivity.
Qed.

Lemma exec_price_at_digit c r :
  is_digit c = true ->
  exec price_pattern (String c r) =
  Some (fst (span_digits (String c r)) ++ fraction_text (snd (span_digits (String c r))))%string.
Proof.
  intros Hc. set (s := String c r).
  assert (Hne : is_empty (fst (span_digits s)) = false).
  { unfold s. rewrite span_digits_empty, Hc. reflexivity. }
  destruct (plus_class_longest s Hne) as [l Hl].
  destruct (fraction_text_split (snd (span_digits s))) as (rest0 & l0 & He & Hs).
  assert (Hends : ends price_pattern s = rest0 :: (l0 ++ flat_map
              (ends (Opt (Seq (Class is_dot) (PlusClass is_digit)))) l)).
  { unfold price_pattern.
    change (ends (Seq (PlusClass is_digit) ?x) ?t)
      with (flat_map (ends x) (plus_class is_digit t)).
    rewrite Hl. cbn [flat_map]. rewrite He. reflexivity. }
  destruct (exec_head _ _ _ _ Hends) as (pre & Hpre & _ & Hx).
  rewrite Hx. f_equal.
  apply (string_app_cancel_r _ _ rest0).
  rewrite <- Hpre, string_app_assoc, <- Hs. apply span_digits_split.
Qed.

Lemma exec_price_first_number text :
  exec price_pattern text = first_number text.
Proof.
  induction text as [| c r IH]; [reflexivity |].
  cbn [first_number]. destruct (is_digit c) eqn:Hc.
  - apply exec_price_at_digit, Hc.
  - cbn [exec]. rewrite (proj2 (ends_price_pattern c r) Hc). exact IH.
Qed.

(** X3. What the price pattern matches in a text is the first run of
    digits of the text, together with the decimal point and the digits
    that follow the run directly, if any; there is no match exactly when
    the text has no digit. *)
Theorem price_match_is_first_number text :
  exec price_pattern text = first_number text /\
  (exec price_pattern text = None <->
   forallb_string (fun c => negb (is_digit c)) text = true).
Proof.
  split; [apply exec_price_first_number |].
  rewrite exec_price_first_number.
  induction text as [| c r IH]; [split; reflexivity |].
  cbn [first_number forallb_string]. destruct (is_digit c); cbn [negb andb].
  - split; discriminate.
  - exact IH.
Qed.

Lemma first_number_starts_with_digit s m :
  first_number s = Some m -> exists c t, m = String c t /\ is_digit c = true.
Proof.
  induction s as [| c r IH]; [discriminate |].
  cbn [first_number]. destruct (is_digit c) eqn:Hc; [| exact IH].
  intros [= <-]. simpl. rewrite Hc.
  destruct (span_digits r) as [ds rest]. simpl.
  exists c, (ds ++ fraction_text rest)%string. split; [reflexivity | exact Hc].
Qed.

(** X4. Whenever the price step succeeds, the price is a Number: the
    text it hands to [parseFloat] starts with a digit, so the price is
    never NaN. *)
Theorem price_never_nan text p b b' :
  priceText text b = (Ret p, b') ->
  parseFloat (Str p) <> NaN /\ exec price_pattern text = Some p /\ b' = b.
Proof.
  unfold priceText. destruct (exec price_pattern text) as [m |] eqn:Hm; [| discriminate].
  rewrite (price_match_comma_free _ _ Hm). unfold ret. intros [= <- <-].
  split; [| split; reflexivity].
  rewrite exec_price_first_number in Hm.
  destruct (first_number_starts_with_digit _ _ Hm) as (c & t & -> & Hc).
  intros Hnan. apply parseFloat_string_nan in Hnan.
  unfold has_numeric_prefix in Hnan. simpl in Hnan.
  rewrite (digit_not_white c Hc) in Hnan. simpl in Hnan.
  rewrite (digit_not_plus c Hc), (digit_not_minus c Hc) in Hnan.
  unfold starts_literal in Hnan. cbn [snd] in Hnan.
  rewrite Hc in Hnan. rewrite orb_true_r in Hnan. discriminate.
Qed.

Lemma price_never_nan_witness :
  parseFloat (Str "45") <> NaN /\ exec price_pattern "Now only 45 EUR" = Some "45" /\
  Sample.start Sample.product_page = Sample.start Sample.product_page.
Proof.
  apply (price_never_nan "Now only 45 EUR" "45" (Sample.start Sample.product_page)).
  reflexivity.
Defined.

(* ===================================================================== *)
(** * More on the fetcher *)
(* ===================================================================== *)

Lemma parseCsvRows_split_not_nil csv : parseCsvRows (split newline csv) <> [].
Proof.
  pose proof (split_not_nil newline csv) as H.
  destruct (split newline csv); [contradiction | discriminate].
Qed.

(** X5. [getExchangeRates] returns the empty array exactly when the fetch
    failed: a response with a success status, whatever its body, yields
    at least one record (an empty body yields one, for its one empty
    line). *)
Theorem getExchangeRates_empty_iff_failed net b :
  fst (getExchangeRates net b) = Ret [] <-> fetch_failed net = true.
Proof.
  split.
  - intros H. destruct (fetch_failed net) eqn:Hf; [reflexivity |].
    destruct net as [reason | r]; [discriminate |].
    simpl in Hf. apply negb_false_iff in Hf.
    destruct (body r) as [csv |] eqn:Hb.
    + rewrite (getExchangeRates_ok _ _ _ Hf Hb) in H. simpl in H.
      injection H as H. apply parseCsvRows_split_not_nil in H. contradiction.
    + rewrite (getExchangeRates_body_fails _ _ Hf Hb) in H. discriminate.
  - intros Hf. rewrite (getExchangeRates_failed _ _ Hf). reflexivity.
Qed.

(** X6. The [try] of [getExchangeRates] ends before the body is read:
    when the status is a success and reading the body fails, the failure
    is thrown to the caller and nothing is logged. *)
Theorem getExchangeRates_body_failure_escapes r b :
  ok r = true -> body r = None ->
  exists e, getExchangeRates (Resolved r) b = (Throw e, requested GOOGLE_SHEETS_URL b) /\
            console (requested GOOGLE_SHEETS_URL b) = console b.
Proof.
  intros Hok Hb. exists (Rejected "body").
  rewrite (getExchangeRates_body_fails _ _ Hok Hb). split; reflexivity.
Qed.

Lemma getExchangeRates_body_failure_escapes_witness :
  exists e,
    getExchangeRates (Resolved {| ok := true; status := 200; body := None |})
      (Sample.start Sample.product_page)
    = (Throw e, requested GOOGLE_SHEETS_URL (Sample.start Sample.product_page)) /\
    console (requested GOOGLE_SHEETS_URL (Sample.start Sample.product_page)) = [].
Proof.
  apply (getExchangeRates_body_failure_escapes
           {| ok := true; status := 200; body := None |}
           (Sample.start Sample.product_page)); reflexivity.
Defined.

Lemma getExchangeRates_requests net b :
  requests (snd (getExchangeRates net b)) = requests b ++ [GOOGLE_SHEETS_URL] /\
  unhandled (snd (getExchangeRates net b)) = unhandled b.
Proof.
  destruct (fetch_failed net) eqn:Hf.
  - rewrite (getExchangeRates_failed _ _ Hf). split; reflexivity.
  - destruct net as [reason | r]; [discriminate |].
    simpl in Hf. apply negb_false_iff in Hf.
    destruct (body r) as [csv |] eqn:Hb.
    + rewrite (getExchangeRates_ok _ _ _ Hf Hb). split; reflexivity.
    + rewrite (getExchangeRates_body_fails _ _ Hf Hb). split; reflexivity.
Qed.

(* ===================================================================== *)
(** * More on the renderer *)
(* ===================================================================== *)

(** ** The formatting of the whole feed *)

Lemma currency_parseCsvRow row : exists c, currency (parseCsvRow row) = Str c.
Proof.
  unfold parseCsvRow. cbn [currency].
  pose proof (split_not_nil "," row) as H.
  destruct (split "," row) as [| f fs]; [contradiction |].
  exists f. reflexivity.
Qed.

Lemma formatRate_well_formed L price r b :
  well_formed_record r = true ->
  formatRate L price r b = (Ret (entry L price r), b).
Proof.
  unfold well_formed_record, formatRate, entry, bind, NumberFormat_currency, ret.
  destruct (currency r) as [| c]; [discriminate |].
  intros H. rewrite H. reflexivity.
Qed.

Lemma formatRate_ill_formed L price row b :
  well_formed_record (parseCsvRow row) = false ->
  formatRate L price (parseCsvRow row) b = (Throw RangeError, b).
Proof.
  unfold well_formed_record, formatRate, bind, NumberFormat_currency, throw.
  destruct (currency_parseCsvRow row) as [c ->].
  intros H. rewrite H. reflexivity.
Qed.

Lemma mapM_formatRate_all L price rates b :
  forallb well_formed_record rates = true ->
  mapM (formatRate L price) rates b = (Ret (map (entry L price) rates), b).
Proof.
  induction rates as [| r rates IH]; [reflexivity |].
  cbn [forallb]. intros H. apply andb_true_iff in H as [Hr Hrest].
  cbn [mapM map]. unfold bind at 1. rewrite (formatRate_well_formed _ _ _ _ Hr).
  unfold bind. rewrite (IH Hrest). reflexivity.
Qed.

Lemma mapM_formatRate_some_bad L price rows b :
  forallb well_formed_record (parseCsvRows rows) = false ->
  mapM (formatRate L price) (parseCsvRows rows) b = (Throw RangeError, b).
Proof.
  induction rows as [| row rows IH]; [discriminate |].
  cbn [parseCsvRows map forallb]. fold (parseCsvRows rows). intros H.
  cbn [mapM]. unfold bind at 1.
  destruct (well_formed_record (parseCsvRow row)) eqn:Hr.
  - rewrite (formatRate_well_formed _ _ _ _ Hr). unfold bind at 1.
    rewrite (IH H). reflexivity.
  - rewrite (formatRate_ill_formed _ _ _ _ Hr). reflexivity.
Qed.

Lemma remove_block_none f : blocks f = 0 -> remove_block f = f.
Proof.
  intros H. unfold remove_block. apply getElementById_none in H. rewrite H. reflexivity.
Qed.

(** X7. The rendered list mirrors the feed.  On a product page, with a
    response of success status whose every row starts with a well-formed
    currency code, a price text that matches and a details container,
    the cycle completes; the block it inserts lists one entry for each
    row, in the order of the feed: the code as the feed has it, a colon,
    and the product of price and rate formatted for that currency.  One
    request was made and nothing was logged. *)
Theorem displayCurrencies_renders_feed L r csv b text m d :
  is_product_page (document b) = true ->
  ok r = true -> body r = Some csv ->
  forallb well_formed_record (parseCsvRows (split newline csv)) = true ->
  price_text (remove_block (document b)) = Some text ->
  exec price_pattern text = Some m ->
  details (remove_block (document b)) = Some d ->
  displayCurrencies L (Resolved r) b =
    (Ret tt,
     with_document
       (update_at
          (prepend_child
             (parentElement
                (map (entry L (parseFloat (Str m))) (parseCsvRows (split newline csv)))))
          (remove_block (document b)) d)
       (requested GOOGLE_SHEETS_URL (with_document (remove_block (document b)) b))) /\
  map textContent
    (map listItemElement
       (map (entry L (parseFloat (Str m))) (parseCsvRows (split newline csv)))) =
  map (fun row =>
         (ToString (currency (parseCsvRow row)) ++ ": " ++
          NumberFormat_format L
            (map_string to_upper (ToString (currency (parseCsvRow row))))
            (mul (parseFloat (Str m)) (rate (parseCsvRow row))))%string)
      (split newline csv).
Proof.
  intros Hp Hok Hb Hwf Ht Hm Hd. split.
  - rewrite (displayCurrencies_product L (Resolved r) b Hp).
    rewrite (getExchangeRates_ok _ _ _ Hok Hb).
    cbn [document requested with_requests with_document].
    rewrite Ht, Hm, (price_match_comma_free _ _ Hm).
    rewrite (mapM_formatRate_all _ _ _ _ Hwf).
    cbn [document requested with_requests with_document].
    rewrite Hd. reflexivity.
  - unfold parseCsvRows. rewrite !map_map. apply map_ext. intros row.
    cbn [listItemElement textContent map String.concat entry fcurrency fvalue].
    reflexivity.
Qed.

Lemma displayCurrencies_renders_feed_witness :
  option_map (fun n => map textContent (children_of n))
    (lookup
       (document
          (snd (displayCurrencies Sample.locale (Sample.feed Sample.csv_two_rows)
                  (Sample.start Sample.product_page))))
       [0; 1; 1; 0; 1])
  = Some ["USD: USD <amount>"; "EUR: EUR <amount>"].
Proof.
  unfold Sample.feed.
  rewrite (proj1 (displayCurrencies_renders_feed Sample.locale
             {| ok := true; status := 200; body := Some Sample.csv_two_rows |}
             Sample.csv_two_rows (Sample.start Sample.product_page)
             "From $45.99" "45.99" [0; 1; 1]
             eq_refl eq_refl eq_refl eq_refl eq_refl eq_refl eq_refl)).
  vm_compute. reflexivity.
Defined.

(** X8. One bad row spoils the feed.  When a row of the response starts
    with something that is no well-formed currency code, the cycle, on a
    product page whose price text matches, throws a RangeError: the old
    block is gone and no block is inserted, however many good rows the
    feed has. *)
Theorem displayCurrencies_bad_code_aborts L r csv b text m :
  is_product_page (document b) = true ->
  ok r = true -> body r = Some csv ->
  forallb well_formed_record (parseCsvRows (split newline csv)) = false ->
  price_text (remove_block (document b)) = Some text ->
  exec price_pattern text = Some m ->
  displayCurrencies L (Resolved r) b =
    (Throw RangeError,
     requested GOOGLE_SHEETS_URL (with_document (remove_block (document b)) b)).
Proof.
  intros Hp Hok Hb Hwf Ht Hm.
  rewrite (displayCurrencies_product L (Resolved r) b Hp).
  rewrite (getExchangeRates_ok _ _ _ Hok Hb).
  cbn [document requested with_requests with_document].
  rewrite Ht, Hm.
  rewrite (mapM_formatRate_some_bad _ _ _ _ Hwf). reflexivity.
Qed.

Lemma displayCurrencies_bad_code_aborts_witness :
  displayCurrencies Sample.locale (Sample.feed csv_bad_row)
    (Sample.start Sample.product_page) =
    (Throw RangeError,
     requested GOOGLE_SHEETS_URL
       (with_document (remove_block (document (Sample.start Sample.product_page)))
          (Sample.start Sample.product_page))).
Proof.
  apply (displayCurrencies_bad_code_aborts Sample.locale
           {| ok := true; status := 200; body := Some csv_bad_row |} csv_bad_row
           (Sample.start Sample.product_page) "From $45.99" "45.99");
    reflexivity.
Defined.

Lemma split_trailing sep s :
  split sep (s ++ String sep "") = split sep s ++ [EmptyString].
Proof.
  induction s as [| c r IH]; simpl.
  - rewrite Ascii.eqb_refl. reflexivity.
  - destruct (Ascii.eqb c sep); [rewrite IH; reflexivity |].
    rewrite IH. pose proof (split_not_nil sep r) as Hn.
    destruct (split sep r) as [| f fs]; [contradiction | reflexivity].
Qed.

Lemma trailing_newline_bad_row csv :
  forallb well_formed_record (parseCsvRows (split newline (csv ++ String newline "")))
  = false.
Proof.
  rewrite split_trailing. unfold parseCsvRows. rewrite map_app, forallb_app.
  apply andb_false_iff. right. reflexivity.
Qed.

(** X9. A feed that ends with a newline never renders.  For a response
    of success status whose body ends with a newline, the cycle, on a
    product page whose price text matches, throws a RangeError, whatever
    the rows before: the empty line after the newline is a record whose
    currency is the empty string. *)
Theorem displayCurrencies_trailing_newline_aborts L r csv b text m :
  is_product_page (document b) = true ->
  ok r = true -> body r = Some (csv ++ String newline "")%string ->
  price_text (remove_block (document b)) = Some text ->
  exec price_pattern text = Some m ->
  displayCurrencies L (Resolved r) b =
    (Throw RangeError,
     requested GOOGLE_SHEETS_URL (with_document (remove_block (document b)) b)).
Proof.
  intros Hp Hok Hb Ht Hm.
  rewrite (displayCurrencies_product L (Resolved r) b Hp).
  rewrite (getExchangeRates_ok _ _ _ Hok Hb).
  cbn [document requested with_requests with_document].
  rewrite Ht, Hm.
  rewrite (mapM_formatRate_some_bad _ _ _ _ (trailing_newline_bad_row csv)).
  reflexivity.
Qed.

Lemma displayCurrencies_trailing_newline_aborts_witness :
  fst (displayCurrencies Sample.locale
         (Sample.feed (Sample.csv_two_rows ++ String newline ""))
         (Sample.start Sample.product_page)) = Throw RangeError.
Proof.
  unfold Sample.feed.
  rewrite (displayCurrencies_trailing_newline_aborts Sample.locale
             {| ok := true; status := 200;
                body := Some (Sample.csv_two_rows ++ String newline "")%string |}
             Sample.csv_two_rows (Sample.start Sample.product_page)
             "From $45.99" "45.99" eq_refl eq_refl eq_refl eq_refl eq_refl).
  reflexivity.
Defined.

(** ** What every cycle on a product page does *)

(** The shape of the browser after a cycle on a product page: one more
    request, and a page that is the one found less the old block, with
    the new block in it when the cycle completed. *)
Lemma displayCurrencies_product_shape L net b :
  is_product_page (document b) = true ->
  requests (snd (displayCurrencies L net b)) = requests b ++ [GOOGLE_SHEETS_URL] /\
  unhandled (snd (displayCurrencies L net b)) = unhandled b /\
  match fst (displayCurrencies L net b) with
  | Throw _ => document (snd (displayCurrencies L net b)) = remove_block (document b)
  | Ret _ =>
      exists fs d t a l kids,
        lookup (remove_block (document b)) d = Some (Element t a l kids) /\
        document (snd (displayCurrencies L net b)) =
          update_at (prepend_child (parentElement fs)) (remove_block (document b)) d
  end.
Proof.
  intros Hp. rewrite (displayCurrencies_product L net b Hp).
  set (b1 := with_document (remove_block (document b)) b).
  pose proof (getExchangeRates_frame net b1) as [Hdoc _].
  pose proof (getExchangeRates_requests net b1) as [Hreq Hun].
  destruct (getExchangeRates net b1) as [[rates | e] b2];
    cbn [snd fst] in *; cbn [document requests unhandled with_document b1] in *;
    [| repeat split; assumption].
  destruct (price_text (document b2)) as [text |]; [| repeat split; assumption].
  destruct (exec price_pattern text) as [m |]; [| repeat split; assumption].
  pose proof (mapM_formatRate_state L (parseFloat (Str (remove_all "," m))) rates b2) as Hst.
  destruct (mapM _ rates b2) as [[fs | e] b3]; cbn [snd] in Hst; subst b3;
    [| repeat split; assumption].
  destruct (details (document b2)) as [d |] eqn:Hd; [| repeat split; assumption].
  cbn [snd fst document requests unhandled with_document].
  split; [exact Hreq |]. split; [exact Hun |].
  rewrite Hdoc in Hd. destruct (details_is_element _ _ Hd) as (t & a & l & k & Hl).
  exists fs, d, t, a, l, k. split; [exact Hl |]. rewrite Hdoc. reflexivity.
Qed.

(** X10. On a product page every cycle makes exactly one request, to the
    configured address, whatever happens next: the request comes before
    the price is looked at, so a cycle that then fails has made it
    too. *)
Theorem displayCurrencies_always_fetches L net b :
  is_product_page (document b) = true ->
  requests (snd (displayCurrencies L net b)) = requests b ++ [GOOGLE_SHEETS_URL].
Proof. intros Hp. apply (displayCurrencies_product_shape L net b Hp). Qed.

Lemma displayCurrencies_always_fetches_witness :
  fst (displayCurrencies Sample.locale Sample.feed_offline
         (Sample.start Sample.product_page_no_price)) = Throw TypeError /\
  requests (snd (displayCurrencies Sample.locale Sample.feed_offline
                   (Sample.start Sample.product_page_no_price)))
    = [] ++ [GOOGLE_SHEETS_URL].
Proof.
  split; [reflexivity |].
  apply (displayCurrencies_always_fetches Sample.locale Sample.feed_offline
           (Sample.start Sample.product_page_no_price)).
  reflexivity.
Defined.

(** X11. A cycle that throws on a product page has already removed the
    old block and inserts none: the page it leaves is the page it found
    less the first element with the block's id. *)
Theorem displayCurrencies_aborted_page L net b e b' :
  is_product_page (document b) = true ->
  displayCurrencies L net b = (Throw e, b') ->
  document b' = remove_block (document b) /\
  blocks (document b') <= blocks (document b).
Proof.
  intros Hp Hrun.
  pose proof (displayCurrencies_product_shape L net b Hp) as (_ & _ & H).
  rewrite Hrun in H. cbn [fst snd] in H.
  split; [exact H |]. rewrite H. apply blocks_remove_block.
Qed.

Lemma displayCurrencies_aborted_page_witness :
  let b := snd (displayCurrencies Sample.locale (Sample.feed Sample.csv_two_rows)
                  (Sample.start Sample.product_page)) in
  let b' := snd (displayCurrencies Sample.locale
                   (Sample.feed (Sample.csv_two_rows ++ String newline "")) b) in
  blocks (document b) = 1 /\
  (document b' = remove_block (document b) /\ blocks (document b') <= blocks (document b)) /\
  blocks (document b') = 0.
Proof.
  intros b b'. split; [reflexivity |]. split; [| reflexivity].
  apply (displayCurrencies_aborted_page Sample.locale
           (Sample.feed (Sample.csv_two_rows ++ String newline "")) b RangeError b');
    reflexivity.
Defined.

(** X12. A cycle changes nothing of the page but the block.  On a page
    with at most one element of the block's id, the page after a cycle,
    less the block, is the page before it, less the block, whether the
    cycle completed, threw or returned at its guard. *)
Theorem displayCurrencies_touches_only_block L net b :
  blocks (document b) <= 1 ->
  remove_block (document (snd (displayCurrencies L net b))) = remove_block (document b).
Proof.
  intros Hb.
  pose proof (proj2 (blocks_remove_block (document b)) Hb) as H0.
  destruct (og_type (document b)) as [content |] eqn:Ho.
  - destruct (is_product content) eqn:Hc.
    + assert (Hp : is_product_page (document b) = true)
        by (unfold is_product_page; rewrite Ho; exact Hc).
      pose proof (displayCurrencies_product_shape L net b Hp) as (_ & _ & H).
      destruct (fst (displayCurrencies L net b)) as [u | e].
      * destruct H as (fs & d & t & a & l & k & Hl & ->).
        apply (remove_block_inserted _ _ _ _ _ _ fs H0 Hl).
      * rewrite H. apply remove_block_none, H0.
    + rewrite (displayCurrencies_not_product L net b content Ho Hc). reflexivity.
  - rewrite (displayCurrencies_no_marker L net b Ho). reflexivity.
Qed.

Lemma displayCurrencies_touches_only_block_witness :
  remove_block
    (document (snd (displayCurrencies Sample.locale (Sample.feed Sample.csv_two_rows)
                      (Sample.start Sample.product_page))))
  = Sample.product_page.
Proof.
  rewrite (displayCurrencies_touches_only_block Sample.locale
             (Sample.feed Sample.csv_two_rows) (Sample.start Sample.product_page)).
  - reflexivity.
  - vm_compute. lia.
Defined.

(** X13. The number of blocks after a completed cycle on a product page
    is the number the page had once its first block was removed, plus
    one: a cycle removes one element with the block's id, the first, not
    all of them. *)
Theorem displayCurrencies_block_count L net b b' :
  is_product_page (document b) = true ->
  displayCurrencies L net b = (Ret tt, b') ->
  blocks (document b') = blocks (remove_block (document b)) + 1.
Proof.
  intros Hp Hrun.
  destruct (displayCurrencies_completed L net b b' Hp Hrun)
    as (fs & d & t & a & l & k & _ & Hl & ->).
  apply (blocks_insert _ _ _ _ _ _ fs Hl).
Qed.

(** X14. Without an og:type marker on the page the cycle throws a
    TypeError at its first line: the browser is as it was, no request
    made, nothing removed or logged. *)
Theorem displayCurrencies_without_marker L net b :
  querySelector (Sel (ByTagAttrWord "meta" "property" "og:type")) (document b) = None ->
  displayCurrencies L net b = (Throw TypeError, b).
Proof.
  intros H. apply displayCurrencies_no_marker. unfold og_type. rewrite H. reflexivity.
Qed.

Lemma displayCurrencies_block_count_witness :
  blocks product_page_two_blocks = 2 /\
  blocks (document (snd (displayCurrencies Sample.locale Sample.feed_404
                           (Sample.start product_page_two_blocks)))) = 1 + 1.
Proof.
  split; [reflexivity |].
  apply (displayCurrencies_block_count Sample.locale Sample.feed_404
           (Sample.start product_page_two_blocks)); reflexivity.
Defined.

Lemma displayCurrencies_without_marker_witness :
  displayCurrencies Sample.locale (Sample.feed Sample.csv_two_rows)
    (Sample.start page_without_marker)
  = (Throw TypeError, Sample.start page_without_marker).
Proof.
  apply (displayCurrencies_without_marker Sample.locale
           (Sample.feed Sample.csv_two_rows) (Sample.start page_without_marker)).
  reflexivity.
Defined.

Lemma displayCurrencies_at_most_one_witness :
  blocks (document (snd (displayCurrencies Sample.locale
                           (Sample.feed (Sample.csv_two_rows ++ String newline ""))
                           (snd (displayCurrencies Sample.locale
                                   (Sample.feed Sample.csv_two_rows)
                                   (Sample.start Sample.product_page)))))) <= 1.
Proof.
  apply (displayCurrencies_at_most_one Sample.locale
           (Sample.feed (Sample.csv_two_rows ++ String newline ""))
           (snd (displayCurrencies Sample.locale (Sample.feed Sample.csv_two_rows)
                   (Sample.start Sample.product_page)))).
  vm_compute. lia.
Defined.

Lemma displayCurrencies_idempotent_witness :
  exists b2,
    displayCurrencies Sample.locale (Sample.feed Sample.csv_two_rows)
      (snd (displayCurrencies Sample.locale (Sample.feed Sample.csv_two_rows)
              (Sample.start Sample.product_page))) = (Ret tt, b2) /\
    document b2 =
      document (snd (displayCurrencies Sample.locale (Sample.feed Sample.csv_two_rows)
                       (Sample.start Sample.product_page))) /\
    blocks (document b2) = 1.
Proof.
  apply (displayCurrencies_idempotent Sample.locale (Sample.feed Sample.csv_two_rows)
           (Sample.start Sample.product_page)); reflexivity.
Defined.

(* ===================================================================== *)
(** * More on the controller *)
(* ===================================================================== *)

(** X17. A failure of the renderer does not reach initialisation.  When
    the cycle that [initCurrencyConversion] starts throws, the exception
    stays with the promise nobody awaits; initialisation goes on, and
    with a variant control on the page it registers the listener and
    returns. *)
Theorem initCurrencyConversion_renderer_failure L net b e b' p :
  displayCurrencies L net b = (Throw e, b') ->
  variant_select (document b') = Some p ->
  initCurrencyConversion L net b =
    (Ret tt,
     with_document
       (update_at (add_listener ("change", "displayCurrencies")) (document b') p)
       (with_unhandled (unhandled b' ++ [e]) b')).
Proof.
  intros Hrun Hv.
  unfold initCurrencyConversion, bind, call_async. rewrite Hrun.
  unfold document_querySelector, gets. cbn [document with_unhandled].
  unfold variant_select in Hv. rewrite Hv. reflexivity.
Qed.

Lemma initCurrencyConversion_renderer_failure_witness :
  fst (initCurrencyConversion Sample.locale (Sample.feed Sample.csv_two_rows)
         (Sample.start Sample.product_page_no_price)) = Ret tt /\
  unhandled (snd (initCurrencyConversion Sample.locale (Sample.feed Sample.csv_two_rows)
                    (Sample.start Sample.product_page_no_price))) = [TypeError] /\
  lookup (document (snd (initCurrencyConversion Sample.locale
                           (Sample.feed Sample.csv_two_rows)
                           (Sample.start Sample.product_page_no_price)))) [0; 1; 2; 0]
    = Some (Element "select" [] [("change", "displayCurrencies")] []).
Proof.
  rewrite (initCurrencyConversion_renderer_failure Sample.locale
             (Sample.feed Sample.csv_two_rows)
             (Sample.start Sample.product_page_no_price) TypeError
             (snd (displayCurrencies Sample.locale (Sample.feed Sample.csv_two_rows)
                     (Sample.start Sample.product_page_no_price)))
             [0; 1; 2; 0] eq_refl eq_refl).
  repeat split; reflexivity.
Defined.

Lemma same_listener_refl l : same_listener l l = true.
Proof. unfold same_listener. rewrite !String.eqb_refl. reflexivity. Qed.

(** Registering a listener a second time changes nothing. *)
Lemma add_listener_twice l n : add_listener l (add_listener l n) = add_listener l n.
Proof.
  destruct n as [d | t a ls kids]; [reflexivity |].
  cbn [add_listener]. destruct (existsb (same_listener l) ls) eqn:E.
  - cbn [add_listener]. rewrite E. reflexivity.
  - cbn [add_listener]. rewrite existsb_app. cbn [existsb].
    rewrite same_listener_refl, orb_true_r. reflexivity.
Qed.

(** Initialisation twice on the same page registers the listener once:
    the second registration is the one already there. *)
Example initCurrencyConversion_twice_one_listener :
  lookup
    (document
       (snd (initCurrencyConversion Sample.locale (Sample.feed Sample.csv_two_rows)
               (snd (initCurrencyConversion Sample.locale
                       (Sample.feed Sample.csv_two_rows)
                       (Sample.start Sample.product_page))))))
    [0; 1; 2; 0]
  = Some (Element "select" [] [("change", "displayCurrencies")] []).
Proof. vm_compute. reflexivity. Qed.

(* ===================================================================== *)
(** * Cycles that overlap *)
(* ===================================================================== *)

(** The two phases, one after the other, are the cycle. *)
Lemma phases_agree L net b :
  displayCurrencies L net b =
  (pending <- displayCurrencies_begin ;;
   if pending then displayCurrencies_resume L net else ret tt) b.
Proof.
  unfold displayCurrencies, displayCurrencies_begin, displayCurrencies_resume,
    getExchangeRates, getExchangeRates_resume, fetch, fetch_send,
    document_querySelector, document_getElementById, element_getAttribute,
    deref, gets, modify, try_catch, bind, throw, ret.
  destruct (querySelector _ (document b)) as [p |]; [| reflexivity].
  destruct (lookup (document b) p) as [[d | t a l k] |]; try reflexivity.
  destruct (is_product (getAttribute a "content")); [| reflexivity].
  destruct (getElementById block_id (document b)) as [p0 |]; reflexivity.
Qed.

Lemma displayCurrencies_begin_page b b1 :
  displayCurrencies_begin b = (Ret true, b1) ->
  document b1 = remove_block (document b).
Proof.
  unfold displayCurrencies_begin, fetch_send,
    document_querySelector, document_getElementById, element_getAttribute,
    element_remove, deref, gets, modify, bind, throw, ret, remove_block.
  destruct (querySelector _ (document b)) as [p |]; [| discriminate].
  destruct (lookup (document b) p) as [[d | t a l k] |]; try discriminate.
  destruct (is_product (getAttribute a "content")); [| discriminate].
  destruct (getElementById block_id (document b)) as [p0 |];
    intros [= <-]; reflexivity.
Qed.

Lemma getExchangeRates_resume_document net b :
  document (snd (getExchangeRates_resume net b)) = document b.
Proof.
  unfold getExchangeRates_resume, fetch_settle, console_error, response_text,
    try_catch, modify, bind, throw, ret.
  destruct net as [reason | r]; [reflexivity |].
  destruct (ok r); cbn; [| reflexivity].
  destruct (body r); reflexivity.
Qed.

(** The second phase removes nothing: when it completes it has put one
    more block on the page it found. *)
Lemma displayCurrencies_resume_completed L net b b' :
  displayCurrencies_resume L net b = (Ret tt, b') ->
  blocks (document b') = blocks (document b) + 1.
Proof.
  unfold displayCurrencies_resume. unfold bind at 1.
  pose proof (getExchangeRates_resume_document net b) as Hdoc.
  destruct (getExchangeRates_resume net b) as [[rates | e] b2]; [| discriminate].
  cbn [snd] in Hdoc.
  cbv beta iota delta [element_textContent document_querySelector bind deref gets
                       throw ret].
  destruct (querySelector (Sel (ByClass "product-price")) (document b2)) as [pp |];
    [| discriminate].
  destruct (lookup (document b2) pp) as [n |]; [| discriminate].
  cbv beta iota delta [priceText throw ret].
  destruct (exec price_pattern (textContent n)) as [m |]; [| discriminate].
  pose proof (mapM_formatRate_state L (parseFloat (Str (remove_all "," m))) rates b2) as Hst.
  destruct (mapM _ rates b2) as [[fs | e] b3]; [| discriminate].
  cbn [snd] in Hst. subst b3.
  unfold element_insertFirst, modify, throw.
  destruct (querySelector _ (document b2)) as [d |] eqn:Hd; [| discriminate].
  intros [= <-]. cbn [document with_document].
  destruct (details_is_element _ _ Hd) as (t & a & l & k & Hl).
  rewrite (blocks_insert _ _ _ _ _ _ fs Hl), Hdoc. reflexivity.
Qed.

(** X18. Two cycles that overlap leave two blocks.  On a product page
    with at most one block, when a second cycle starts while the request
    of the first is still pending, each first phase finds no block left
    to remove; when both second phases then complete, the page has two
    blocks. *)
Theorem overlapping_cycles_two_blocks L net1 net2 b b1 b2 b3 b4 :
  blocks (document b) <= 1 ->
  displayCurrencies_begin b = (Ret true, b1) ->
  displayCurrencies_begin b1 = (Ret true, b2) ->
  displayCurrencies_resume L net1 b2 = (Ret tt, b3) ->
  displayCurrencies_resume L net2 b3 = (Ret tt, b4) ->
  blocks (document b4) = 2.
Proof.
  intros Hb H1 H2 H3 H4.
  apply displayCurrencies_begin_page in H1.
  apply displayCurrencies_begin_page in H2.
  apply displayCurrencies_resume_completed in H3.
  apply displayCurrencies_resume_completed in H4.
  pose proof (proj2 (blocks_remove_block (document b)) Hb) as H0.
  rewrite <- H1 in H0.
  assert (H0' : blocks (document b2) = 0).
  { rewrite H2. apply blocks_remove_block. lia. }
  lia.
Qed.

Lemma overlapping_cycles_two_blocks_witness :
  let b := Sample.start Sample.product_page in
  let b1 := snd (displayCurrencies_begin b) in
  let b2 := snd (displayCurrencies_begin b1) in
  let b3 := snd (displayCurrencies_resume Sample.locale
                   (Sample.feed Sample.csv_two_rows) b2) in
  let b4 := snd (displayCurrencies_resume Sample.locale
                   (Sample.feed Sample.csv_two_rows) b3) in
  blocks (document b4) = 2 /\
  option_map (fun n => List.length (children_of n)) (lookup (document b4) [0; 1; 1])
    = Some 3.
Proof.
  intros b b1 b2 b3 b4. split; [| reflexivity].
  apply (overlapping_cycles_two_blocks Sample.locale
           (Sample.feed Sample.csv_two_rows) (Sample.feed Sample.csv_two_rows)
           b b1 b2 b3 b4).
  - vm_compute. lia.
  - reflexivity.
  - reflexivity.
  - reflexivity.
  - reflexivity.
Defined.
